(** * run_server.py: a static-file HTTPS server on localhost:4443

    The script under verification is ten lines long:

      httpd = HTTPServer(('localhost', 4443), SimpleHTTPRequestHandler)
      httpd.socket = ssl.wrap_socket(httpd.socket,
                                     keyfile="./localhost-key.pem",
                                     certfile='./localhost.pem',
                                     server_side=True)
      httpd.serve_forever()

    Everything it does is done by the classes it instantiates, so the
    embedding follows CPython 3.11's [posixpath], [http.server],
    [socketserver] and [ssl] modules function by function, for a POSIX
    system ([os.path] is [posixpath]).  Library functions that the handler
    merely calls and whose results no property below depends on
    (percent-decoding, MIME guessing, date formatting...) are collected in
    the record [Platform] and left abstract; the access log written to
    standard error is not represented. *)

From Stdlib Require Import List NArith ZArith Bool Lia String Ascii.
From Stdlib Require Import DecimalString.
From Stdlib Require Import Permutation Sorted.
Import ListNotations.

(** ** Python strings and bytes *)

(** A Python [str] is a sequence of Unicode code points, a [bytes] object a
    sequence of bytes. *)
Definition char := N.
Definition str := list char.
Definition bytes := list Byte.byte.

Definition pystr (s : string) : str :=
  List.map N_of_ascii (list_ascii_of_string s).

Definition ch (a : ascii) : char := N_of_ascii a.

Definition sep : char := ch "/".

Fixpoint str_eqb (a b : str) : bool :=
  match a, b with
  | [], [] => true
  | x :: a', y :: b' => N.eqb x y && str_eqb a' b'
  | _, _ => false
  end.

(** [s.startswith(p)] *)
Fixpoint startswith (p s : str) : bool :=
  match p, s with
  | [], _ => true
  | x :: p', y :: s' => N.eqb x y && startswith p' s'
  | _ :: _, [] => false
  end.

(** [s.endswith(p)] *)
Definition endswith (p s : str) : bool := startswith (rev p) (rev s).

(** [s.split(c, 1)[0]]: the part of [s] before the first [c]. *)
Fixpoint before (c : char) (s : str) : str :=
  match s with
  | [] => []
  | x :: s' => if N.eqb x c then [] else x :: before c s'
  end.

(** [s.split(c)] for a one-character separator. *)
Fixpoint split (c : char) (s : str) : list str :=
  match s with
  | [] => [[]]
  | x :: s' =>
      if N.eqb x c then [] :: split c s'
      else match split c s' with
           | w :: ws => (x :: w) :: ws
           | [] => [[x]]
           end
  end.

(** [c.join(ws)] *)
Fixpoint join_with (c : char) (ws : list str) : str :=
  match ws with
  | [] => []
  | [w] => w
  | w :: ws' => w ++ c :: join_with c ws'
  end.

Fixpoint dropWhile (f : char -> bool) (s : str) : str :=
  match s with
  | [] => []
  | x :: s' => if f x then dropWhile f s' else s
  end.

(** [s.rstrip(chars)] with the set of characters given as a predicate. *)
Definition rstrip_by (f : char -> bool) (s : str) : str :=
  rev (dropWhile f (rev s)).

Definition lstrip_by (f : char -> bool) (s : str) : str := dropWhile f s.

(** [str.isspace] on one character: the code points whose bidirectional class
    is WS, B or S or whose category is Zs. *)
Definition isspace (c : char) : bool :=
  ((9 <=? c) && (c <=? 13) || (28 <=? c) && (c <=? 32)
   || (c =? 133) || (c =? 160) || (c =? 5760)
   || (8192 <=? c) && (c <=? 8202)
   || (c =? 8232) || (c =? 8233) || (c =? 8239) || (c =? 8287)
   || (c =? 12288))%N.

(** [s.rstrip()] *)
Definition rstrip (s : str) : str := rstrip_by isspace s.

(** [filter(None, words)]: the empty string is the only falsy [str]. *)
Definition nonempty (w : str) : bool :=
  match w with [] => false | _ => true end.

(** [str(n)] for a non-negative integer. *)
Definition str_of_N (n : N) : str :=
  pystr (NilEmpty.string_of_uint (N.to_uint n)).

(** ** posixpath *)

Module posixpath.

Definition curdir : str := pystr ".".
Definition pardir : str := pystr "..".

(** [posixpath.join(a, b)] *)
Definition join (a b : str) : str :=
  if startswith [sep] b then b
  else if negb (nonempty a) || endswith [sep] a then a ++ b
  else a ++ sep :: b.

(** [posixpath.dirname(p)] *)
Definition dirname (p : str) : str :=
  let head := rev (dropWhile (fun c => negb (N.eqb c sep)) (rev p)) in
  if nonempty head && negb (forallb (N.eqb sep) head)
  then rstrip_by (N.eqb sep) head
  else head.

Definition has_items (l : list str) : bool :=
  match l with [] => false | _ => true end.

(** The loop body of [normpath]; [new_comps] is kept reversed, its last
    element first. *)
Definition normpath_step (initial_slashes : nat) (new_comps : list str)
    (comp : str) : list str :=
  if str_eqb comp [] || str_eqb comp curdir then new_comps
  else if negb (str_eqb comp pardir)
          || (Nat.eqb initial_slashes 0 && negb (has_items new_comps))
          || match new_comps with
             | last :: _ => str_eqb last pardir
             | [] => false
             end
       then comp :: new_comps
       else match new_comps with
            | _ :: rest => rest
            | [] => new_comps
            end.

(** [posixpath.normpath(path)], the module's reference implementation. *)
Definition normpath (path : str) : str :=
  if str_eqb path [] then curdir
  else
    let initial_slashes :=
      if startswith [sep] path then
        if startswith [sep; sep] path && negb (startswith [sep; sep; sep] path)
        then 2%nat else 1%nat
      else 0%nat in
    let comps := split sep path in
    let new_comps := fold_left (normpath_step initial_slashes) comps [] in
    let path := join_with sep (rev new_comps) in
    let path := repeat sep initial_slashes ++ path in
    if nonempty path then path else curdir.

End posixpath.

(** ** Text helpers of the standard library *)

Definition dquote : str := [34%N].
Definition newline : char := 10%N.

(** Lexicographic order on code points, the order of [str.__lt__]. *)
Fixpoint str_ltb (a b : str) : bool :=
  match a, b with
  | _, [] => false
  | [], _ :: _ => true
  | x :: a', y :: b' => N.ltb x y || (N.eqb x y && str_ltb a' b')
  end.

(** [html.escape(s, quote=False)] *)
Definition html_escape (s : str) : str :=
  flat_map (fun c =>
    if N.eqb c (ch "&") then pystr "&amp;"
    else if N.eqb c (ch "<") then pystr "&lt;"
    else if N.eqb c (ch ">") then pystr "&gt;"
    else [c]) s.

Definition byte_of_N (n : N) : Byte.byte := byte_of_ascii (ascii_of_N n).

(** [s.encode('UTF-8', 'replace')]: surrogates cannot be encoded and are
    replaced by a question mark. *)
Definition utf8_encode_char (c : char) : bytes :=
  (if c <? 128 then [byte_of_N c]
   else if c <? 2048 then
     [byte_of_N (192 + c / 64); byte_of_N (128 + c mod 64)]
   else if (55296 <=? c) && (c <=? 57343) then [byte_of_N 63]
   else if c <? 65536 then
     [byte_of_N (224 + c / 4096); byte_of_N (128 + (c / 64) mod 64);
      byte_of_N (128 + c mod 64)]
   else
     [byte_of_N (240 + c / 262144); byte_of_N (128 + (c / 4096) mod 64);
      byte_of_N (128 + (c / 64) mod 64); byte_of_N (128 + c mod 64)])%N.

Definition utf8_encode_replace (s : str) : bytes :=
  flat_map utf8_encode_char s.

(** [str.lower] on a Latin-1 string: the ASCII capitals and the accented
    capitals U+00C0..U+00DE (without the multiplication sign) move up by 32. *)
Definition lower_latin1_char (c : char) : char :=
  (if ((65 <=? c) && (c <=? 90))
      || ((192 <=? c) && (c <=? 222) && negb (c =? 215))
   then c + 32 else c)%N.

Definition lower_latin1 (s : string) : str :=
  List.map lower_latin1_char (pystr s).

(** Stable insertion sort by key, the result of [list.sort(key=...)]. *)
Fixpoint insert_by_key (key : str -> str) (x : str) (l : list str) :
    list str :=
  match l with
  | [] => [x]
  | y :: l' =>
      if str_ltb (key x) (key y) then x :: l
      else y :: insert_by_key key x l'
  end.

Definition sort_by_key (key : str -> str) (l : list str) : list str :=
  fold_left (fun acc x => insert_by_key key x acc) l [].

(** ** What the handler takes from the rest of the library and from the
    operating system *)

Inductive tzinfo := TzNaive | TzUTC | TzOther.

(** A [datetime.datetime] as the handler uses it: the calendar fields read as
    seconds since the epoch, and the kind of [tzinfo] attached. *)
Record datetime := { dt_wall : Z; dt_tzinfo : tzinfo }.

(** [urllib.parse.SplitResult] *)
Record SplitResult := {
  sr_scheme : string; sr_netloc : string; sr_path : string;
  sr_query : string; sr_fragment : string }.

(** Library functions called by the handler.  Text that came off the wire
    or goes onto it is Latin-1 and has type [string]; text that went
    through percent-decoding or names files is a [str]. *)
Record Platform := {
  (** [urllib.parse.unquote(s, errors='surrogatepass')]; [None] stands
      for [UnicodeDecodeError]. *)
  unquote_surrogatepass : str -> option str;
  (** [urllib.parse.unquote(s)] *)
  unquote : str -> str;
  urlsplit : string -> SplitResult;
  urlunsplit : SplitResult -> string;
  (** [urllib.parse.quote(s, errors='surrogatepass')] *)
  quote : str -> str;
  (** [SimpleHTTPRequestHandler.guess_type], a lookup in [mimetypes] *)
  guess_type : str -> string;
  (** [email.utils.formatdate(t, usegmt=True)], [t] in microseconds *)
  formatdate : Z -> string;
  (** [email.utils.parsedate_to_datetime]; [None] stands for the
      exceptions the handler ignores. *)
  parsedate_to_datetime : string -> option datetime;
  (** [str.lower] on arbitrary text *)
  lower : str -> str;
  (** [sys.getfilesystemencoding()] *)
  filesystemencoding : string;
  (** [s.encode(enc, 'surrogateescape')]; [None] stands for
      [UnicodeEncodeError]. *)
  fs_encode : str -> option bytes;
  (** ['Python/' + sys.version.split()[0]] *)
  sys_version : string;
  (** [repr] of a request method *)
  repr : string -> string }.

(** An open file: what [read] returns until end of file and what [os.fstat]
    reports, the modification time in microseconds. *)
Record File := { f_data : bytes; st_mtime : Z }.

Inductive OpenResult :=
| Opened (f : File)
| OpenOSError
| OpenValueError.

(** The file system as the handler queries it. *)
Record FileSystem := {
  isdir : str -> bool;
  isfile : str -> bool;
  islink : str -> bool;
  (** [open(path, 'rb')] *)
  open_rb : str -> OpenResult;
  (** [os.listdir(path)]; [None] stands for [OSError]. *)
  listdir : str -> option (list str) }.

Inductive Syscall :=
| SysIsdir (p : str)
| SysIsfile (p : str)
| SysIslink (p : str)
| SysOpen (p : str)
| SysListdir (p : str).

Definition syscall_path (c : Syscall) : str :=
  match c with
  | SysIsdir p | SysIsfile p | SysIslink p | SysOpen p | SysListdir p => p
  end.

(** ** http.server *)

Module http_server.

(** What a handler has put on its connection: the lines of the response head
    and the chunks of the body, in the order written. *)
Inductive WireItem :=
| StatusLine (version : string) (code : N) (message : string)
| HeaderLine (keyword value : string)
| EndOfHeaders
| Payload (data : bytes).

(** The attributes of a request handler instance.  [command], [path] and
    [headers] are what [parse_request] stored for a request with an HTTP/1.x
    version token; [syscalls] records every path the handler gave to the
    operating system. *)
Record Handler := mkHandler {
  command : string;
  path : string;
  headers : list (string * string);
  directory : str;
  close_connection : bool;
  headers_buffer : list WireItem;
  wfile : list WireItem;
  syscalls : list Syscall }.

Definition set_close_connection (b : bool) (h : Handler) : Handler :=
  mkHandler (command h) (path h) (headers h) (directory h) b
            (headers_buffer h) (wfile h) (syscalls h).

Definition set_headers_buffer (b : list WireItem) (h : Handler) : Handler :=
  mkHandler (command h) (path h) (headers h) (directory h)
            (close_connection h) b (wfile h) (syscalls h).

Definition set_wfile (w : list WireItem) (h : Handler) : Handler :=
  mkHandler (command h) (path h) (headers h) (directory h)
            (close_connection h) (headers_buffer h) w (syscalls h).

Definition set_syscalls (l : list Syscall) (h : Handler) : Handler :=
  mkHandler (command h) (path h) (headers h) (directory h)
            (close_connection h) (headers_buffer h) (wfile h) l.

(** Exceptions that leave the handler's methods uncaught. *)
Inductive Exn := ValueError | UnicodeEncodeError.

(** A method of the handler: it updates the instance and returns or
    raises. *)
Inductive Result (A : Type) :=
| Done (a : A) (h : Handler)
| Raised (e : Exn) (h : Handler).
Arguments Done {A} a h.
Arguments Raised {A} e h.

Definition M (A : Type) : Type := Handler -> Result A.

Definition ret {A : Type} (a : A) : M A := fun h => Done a h.

Definition bind {A B : Type} (m : M A) (k : A -> M B) : M B :=
  fun h =>
    match m h with
    | Done a h' => k a h'
    | Raised e h' => Raised e h'
    end.

Definition raise {A : Type} (e : Exn) : M A := fun h => Raised e h.

Definition self : M Handler := fun h => Done h h.

Definition modify (f : Handler -> Handler) : M unit := fun h => Done tt (f h).

Notation "x <- m ;; k" := (bind m (fun x => k))
  (at level 61, m at next level, right associativity).
Notation "m ;;; k" := (bind m (fun _ => k))
  (at level 61, right associativity).

Definition state_of {A : Type} (r : Result A) : Handler :=
  match r with Done _ h | Raised _ h => h end.

Definition string_of_N (n : N) : string :=
  NilEmpty.string_of_uint (N.to_uint n).

Definition protocol_version : string := "HTTP/1.0".
Definition server_version : string := "SimpleHTTP/0.6".
Definition error_content_type : string := "text/html;charset=utf-8".

(** The rows of [BaseHTTPRequestHandler.responses] (built from
    [http.HTTPStatus]) for the codes this handler sends. *)
Definition responses (code : N) : option (string * string) :=
  match code with
  | 200 => Some ("OK", "Request fulfilled, document follows")
  | 301 => Some ("Moved Permanently",
                 "Object moved permanently -- see URI list")
  | 304 => Some ("Not Modified",
                 "Document has not changed since given time")
  | 404 => Some ("Not Found", "Nothing matches the given URI")
  | 501 => Some ("Not Implemented",
                 "Server does not support this operation")
  | _ => None
  end%N%string.

(** [DEFAULT_ERROR_MESSAGE % {'code': ..., 'message': ..., 'explain': ...}] *)
Definition error_message_format (code : N) (message explain : str) : str :=
  join_with newline
    [ pystr "<!DOCTYPE HTML>";
      pystr "<html lang=" ++ dquote ++ pystr "en" ++ dquote ++ pystr ">";
      pystr "    <head>";
      pystr "        <meta charset=" ++ dquote ++ pystr "utf-8" ++ dquote
        ++ pystr ">";
      pystr "        <title>Error response</title>";
      pystr "    </head>";
      pystr "    <body>";
      pystr "        <h1>Error response</h1>";
      pystr "        <p>Error code: " ++ str_of_N code ++ pystr "</p>";
      pystr "        <p>Message: " ++ message ++ pystr ".</p>";
      pystr "        <p>Error code explanation: " ++ str_of_N code
        ++ pystr " - " ++ explain ++ pystr ".</p>";
      pystr "    </body>";
      pystr "</html>";
      [] ].

(** Lookups in [self.headers], an [email.message.Message]: names compare
    after [lower()], the first match wins. *)
Definition same_name (a b : string) : bool :=
  str_eqb (lower_latin1 a) (lower_latin1 b).

Definition has_header (name : string) (hs : list (string * string)) : bool :=
  existsb (fun kv => same_name (fst kv) name) hs.

Definition get_header (name : string) (hs : list (string * string)) :
    option string :=
  match find (fun kv => same_name (fst kv) name) hs with
  | Some kv => Some (snd kv)
  | None => None
  end.

(** What reading a request line and parsing it can come to: the read never
    returns; the line is too long or [parse_request] refuses it, and [reply]
    is what was written back; or the request is accepted. *)
Inductive Input :=
| Stalled
| Rejected (reply : list WireItem)
| Parsed (command path : string) (headers : list (string * string)).

(** A handler instance either returns (or raises) or stays blocked in a
    read. *)
Inductive Outcome :=
| Returned (r : Result unit)
| Blocks (h : Handler).

Section Methods.

Variable P : Platform.
Variable fs : FileSystem.
(** [time.time()], in microseconds *)
Variable now : Z.

(** *** Calls into the operating system *)

Definition traced {A : Type} (c : Syscall) (a : A) : M A :=
  modify (fun h => set_syscalls (syscalls h ++ [c]) h) ;;; ret a.

Definition os_path_isdir (p : str) : M bool := traced (SysIsdir p) (isdir fs p).
Definition os_path_isfile (p : str) : M bool :=
  traced (SysIsfile p) (isfile fs p).
Definition os_path_islink (p : str) : M bool :=
  traced (SysIslink p) (islink fs p).
Definition open_ (p : str) : M OpenResult := traced (SysOpen p) (open_rb fs p).
Definition os_listdir (p : str) : M (option (list str)) :=
  traced (SysListdir p) (listdir fs p).

(** *** BaseHTTPRequestHandler *)

Definition version_string : string :=
  (server_version ++ " " ++ sys_version P)%string.

Definition date_time_string (timestamp : option Z) : string :=
  formatdate P (match timestamp with Some t => t | None => now end).

Definition send_response_only (code : N) (message : option string) : M unit :=
  let message :=
    match message with
    | Some m => m
    | None => match responses code with
              | Some (short, _) => short
              | None => ""%string
              end
    end in
  modify (fun h =>
    set_headers_buffer
      (headers_buffer h ++ [StatusLine protocol_version code message]) h).

Definition send_header (keyword value : string) : M unit :=
  modify (fun h =>
    set_headers_buffer (headers_buffer h ++ [HeaderLine keyword value]) h) ;;;
  if str_eqb (lower_latin1 keyword) (pystr "connection") then
    if str_eqb (lower_latin1 value) (pystr "close") then
      modify (set_close_connection true)
    else if str_eqb (lower_latin1 value) (pystr "keep-alive") then
      modify (set_close_connection false)
    else ret tt
  else ret tt.

Definition flush_headers : M unit :=
  modify (fun h =>
    set_headers_buffer [] (set_wfile (wfile h ++ headers_buffer h) h)).

Definition end_headers : M unit :=
  modify (fun h =>
    set_headers_buffer (headers_buffer h ++ [EndOfHeaders]) h) ;;;
  flush_headers.

Definition send_response (code : N) (message : option string) : M unit :=
  send_response_only code message ;;;
  send_header "Server" version_string ;;;
  send_header "Date" (date_time_string None).

Definition wfile_write (data : bytes) : M unit :=
  modify (fun h => set_wfile (wfile h ++ [Payload data]) h).

Definition send_error (code : N) (message explain : option string) : M unit :=
  let '(shortmsg, longmsg) :=
    match responses code with
    | Some p => p
    | None => ("???", "???")%string
    end in
  let message := match message with Some m => m | None => shortmsg end in
  let explain := match explain with Some e => e | None => longmsg end in
  send_response code (Some message) ;;;
  send_header "Connection" "close" ;;;
  let body :=
    if (200 <=? code)%N
       && negb ((code =? 204)%N || (code =? 205)%N || (code =? 304)%N)
    then Some (utf8_encode_replace
                 (error_message_format code
                    (html_escape (pystr message))
                    (html_escape (pystr explain))))
    else None in
  match body with
  | Some b =>
      send_header "Content-Type" error_content_type ;;;
      send_header "Content-Length"
        (string_of_N (N.of_nat (List.length b)))
  | None => ret tt
  end ;;;
  end_headers ;;;
  h <- self ;;
  match body with
  | Some ((_ :: _) as b) =>
      if negb (String.eqb (command h) "HEAD") then wfile_write b else ret tt
  | _ => ret tt
  end.

(** *** SimpleHTTPRequestHandler *)

Definition translate_path (directory : str) (path : string) : str :=
  (* abandon query parameters *)
  let path := before (ch "?") (pystr path) in
  let path := before (ch "#") path in
  let trailing_slash := endswith [sep] (rstrip path) in
  let path :=
    match unquote_surrogatepass P path with
    | Some p => p
    | None => unquote P path
    end in
  let path := posixpath.normpath path in
  let words := filter nonempty (split sep path) in
  let path :=
    fold_left
      (fun path word =>
         if nonempty (posixpath.dirname word)
            || str_eqb word posixpath.curdir
            || str_eqb word posixpath.pardir
         then path (* not a simple file or directory name: ignored *)
         else posixpath.join path word)
      words directory in
  if trailing_slash then path ++ [sep] else path.

(** Whether the request's [If-Modified-Since] date is at or after the
    file's modification time; the handler looks at it only when
    [If-None-Match] is absent. *)
Definition not_modified_since (hs : list (string * string)) (f : File) : bool :=
  if has_header "If-Modified-Since" hs && negb (has_header "If-None-Match" hs)
  then
    match get_header "If-Modified-Since" hs with
    | None => false
    | Some value =>
        match parsedate_to_datetime P value with
        | None => false (* ill-formed values are ignored *)
        | Some ims =>
            let tz := match dt_tzinfo ims with
                      | TzNaive => TzUTC
                      | t => t
                      end in
            match tz with
            | TzUTC => (st_mtime f / 1000000 <=? dt_wall ims)%Z
            | _ => false
            end
        end
    end
  else false.

(** One [<li>] line of a directory listing. *)
Definition list_directory_entry (path name : str) : M str :=
  let fullname := posixpath.join path name in
  d <- os_path_isdir fullname ;;
  l <- os_path_islink fullname ;;
  let linkname := if d then name ++ [sep] else name in
  let displayname :=
    if l then name ++ pystr "@"
    else if d then name ++ [sep] else name in
  ret (pystr "<li><a href=" ++ dquote ++ quote P linkname ++ dquote
       ++ pystr ">" ++ html_escape displayname ++ pystr "</a></li>").

Fixpoint list_directory_entries (path : str) (names : list str) :
    M (list str) :=
  match names with
  | [] => ret []
  | name :: rest =>
      line <- list_directory_entry path name ;;
      lines <- list_directory_entries path rest ;;
      ret (line :: lines)
  end.

Definition list_directory (path : str) : M (option bytes) :=
  listing <- os_listdir path ;;
  match listing with
  | None =>
      send_error 404 (Some "No permission to list directory"%string) None ;;;
      ret None
  | Some list =>
      let list := sort_by_key (lower P) list in
      h <- self ;;
      let displaypath :=
        match unquote_surrogatepass P (pystr (http_server.path h)) with
        | Some d => d
        | None => unquote P path
        end in
      let displaypath := html_escape displaypath in
      let enc := filesystemencoding P in
      let title := pystr "Directory listing for " ++ displaypath in
      entries <- list_directory_entries path list ;;
      let r :=
        [ pystr "<!DOCTYPE HTML>";
          pystr "<html lang=" ++ dquote ++ pystr "en" ++ dquote ++ pystr ">";
          pystr "<head>";
          pystr "<meta charset=" ++ dquote ++ pystr enc ++ dquote
            ++ pystr ">";
          pystr "<title>" ++ title ++ pystr "</title>" ++ [newline]
            ++ pystr "</head>";
          pystr "<body>" ++ [newline] ++ pystr "<h1>" ++ title
            ++ pystr "</h1>";
          pystr "<hr>" ++ [newline] ++ pystr "<ul>" ]
        ++ entries
        ++ [ pystr "</ul>" ++ [newline] ++ pystr "<hr>" ++ [newline]
             ++ pystr "</body>" ++ [newline] ++ pystr "</html>"
             ++ [newline] ] in
      match fs_encode P (join_with newline r) with
      | None => raise UnicodeEncodeError
      | Some encoded =>
          send_response 200 None ;;;
          send_header "Content-type"
            ("text/html; charset=" ++ enc)%string ;;;
          send_header "Content-Length"
            (string_of_N (N.of_nat (List.length encoded))) ;;;
          end_headers ;;;
          ret (Some encoded)
      end
  end.

(** [send_head] from [ctype = self.guess_type(path)] on: the response for
    the file at [path]. *)
Definition send_head_file (path : str) : M (option bytes) :=
  let ctype := guess_type P path in
  if endswith [sep] path then
    send_error 404 (Some "File not found"%string) None ;;; ret None
  else
    r <- open_ path ;;
    match r with
    | OpenOSError =>
        send_error 404 (Some "File not found"%string) None ;;; ret None
    | OpenValueError => raise ValueError
    | Opened f =>
        h <- self ;;
        if not_modified_since (headers h) f then
          send_response 304 None ;;; end_headers ;;; ret None
        else
          send_response 200 None ;;;
          send_header "Content-type" ctype ;;;
          send_header "Content-Length"
            (string_of_N (N.of_nat (List.length (f_data f)))) ;;;
          send_header "Last-Modified"
            (date_time_string (Some (st_mtime f))) ;;;
          end_headers ;;;
          ret (Some (f_data f))
    end.

(** [send_head]: the response head, and the bytes left for the caller to
    copy to the client. *)
Definition send_head : M (option bytes) :=
  h <- self ;;
  let path := translate_path (directory h) (http_server.path h) in
  d <- os_path_isdir path ;;
  if d then
    let parts := urlsplit P (http_server.path h) in
    if negb (endswith [sep] (pystr (sr_path parts))) then
      (* redirect browser - doing basically what apache does *)
      send_response 301 None ;;;
      send_header "Location"
        (urlunsplit P
           {| sr_scheme := sr_scheme parts; sr_netloc := sr_netloc parts;
              sr_path := (sr_path parts ++ "/")%string;
              sr_query := sr_query parts;
              sr_fragment := sr_fragment parts |}) ;;;
      send_header "Content-Length" "0" ;;;
      end_headers ;;;
      ret None
    else
      let index := posixpath.join path (pystr "index.html") in
      i <- os_path_isfile index ;;
      if i then send_head_file index
      else
        let index := posixpath.join path (pystr "index.htm") in
        i <- os_path_isfile index ;;
        if i then send_head_file index
        else list_directory path
  else send_head_file path.

Definition do_GET : M unit :=
  f <- send_head ;;
  match f with
  | Some data => wfile_write data (* copyfile(f, self.wfile) *)
  | None => ret tt
  end.

Definition do_HEAD : M unit :=
  f <- send_head ;;
  ret tt.

(** [handle_one_request] once the request line and the headers are parsed:
    dispatch on the method name. *)
Definition handle_one_request : M unit :=
  h <- self ;;
  if String.eqb (command h) "GET" then do_GET
  else if String.eqb (command h) "HEAD" then do_HEAD
  else
    send_error 501
      (Some ("Unsupported method (" ++ repr P (command h) ++ ")")%string)
      None.

(** *** The request loop of a handler instance *)

(** [parse_request] storing a request line and headers it accepted. *)
Definition parse_request (c p : string) (hs : list (string * string))
    (h : Handler) : Handler :=
  mkHandler c p hs (directory h) true (headers_buffer h) (wfile h)
            (syscalls h).

(** [handle]: one request, then more while [close_connection] is false.
    [rfile] lists what the successive reads of a request line find; at its
    end the client has closed its side and [readline] returns nothing. *)
Fixpoint handle (rfile : list Input) (h : Handler) : Outcome :=
  match rfile with
  | [] => Returned (Done tt (set_close_connection true h))
  | Stalled :: _ => Blocks h
  | Rejected reply :: _ =>
      Returned (Done tt (set_wfile (wfile h ++ reply)
                           (set_close_connection true h)))
  | Parsed c p hs :: rest =>
      match handle_one_request (parse_request c p hs h) with
      | Done _ h' =>
          if close_connection h' then Returned (Done tt h')
          else handle rest h'
      | Raised e h' => Returned (Raised e h')
      end
  end.

(** Instantiating the handler class on a connection, as [finish_request]
    does: [directory] defaults to [os.getcwd()]. *)
Definition SimpleHTTPRequestHandler (getcwd : str) (rfile : list Input) :
    Outcome :=
  handle rfile (mkHandler "" "" [] getcwd true [] [] []).

End Methods.

End http_server.

(** An exception as the interpreter reports it. *)
Record Exception := { exc_type : string; exc_message : string }.

(** ** ssl *)

Module ssl.

Inductive VerifyMode := CERT_NONE | CERT_OPTIONAL | CERT_REQUIRED.

Record SSLContext := {
  verify_mode : VerifyMode;
  certfile : option string;
  keyfile : option string;
  ca_certs : option string;
  ciphers : option string }.

(** A wrapped socket.  [do_handshake_on_connect] and
    [suppress_ragged_eofs], which the script leaves at their default [True],
    are not represented: the handshake of a connection is always done when
    it is wrapped. *)
Record SSLSocket := {
  context : SSLContext;
  server_side : bool }.

(** What the context methods called by [wrap_socket] find on this machine:
    [None] when the call returns, the exception otherwise. *)
Record Loader := {
  load_cert_chain : string -> option string -> option Exception;
  load_verify_locations : string -> option Exception;
  set_ciphers : string -> option Exception }.

Definition truthy (s : option string) : bool :=
  match s with
  | Some s => negb (String.eqb s "")
  | None => false
  end.

Definition guard (r : option Exception) (k : Exception + SSLSocket) :
    Exception + SSLSocket :=
  match r with
  | Some e => inl e
  | None => k
  end.

(** [ssl.wrap_socket(sock, keyfile, certfile, server_side, cert_reqs,
    ssl_version, ca_certs, do_handshake_on_connect, suppress_ragged_eofs,
    ciphers)], with [ssl_version] and the two flags at their defaults.  The
    listening socket is not connected, so no handshake takes place here. *)
Definition wrap_socket (ld : Loader) (keyfile certfile : option string)
    (server_side : bool) (cert_reqs : VerifyMode) (ca_certs : option string)
    (ciphers : option string) : Exception + SSLSocket :=
  if server_side && negb (truthy certfile) then
    inl {| exc_type := "ValueError";
           exc_message :=
             "certfile must be specified for server-side operations" |}
  else if truthy keyfile && negb (truthy certfile) then
    inl {| exc_type := "ValueError";
           exc_message := "certfile must be specified" |}
  else
    guard (match ca_certs with
           | Some ca => if truthy ca_certs then load_verify_locations ld ca
                        else None
           | None => None
           end)
   (guard (match certfile with
           | Some cf => if truthy certfile then load_cert_chain ld cf keyfile
                        else None
           | None => None
           end)
   (guard (match ciphers with
           | Some cs => if truthy ciphers then set_ciphers ld cs else None
           | None => None
           end)
      (inr {| context := {| verify_mode := cert_reqs;
                            certfile := certfile; keyfile := keyfile;
                            ca_certs := ca_certs; ciphers := ciphers |};
              server_side := server_side |}))).

(** The default of [wrap_socket]'s parameter [cert_reqs]. *)
Definition default_cert_reqs : VerifyMode := CERT_NONE.

(** The first thing a peer sends after connecting. *)
Inductive Flight :=
| ClientHello (negotiable : bool)
| NotTLS
| Nothing.

(** A client certificate, and whether it verifies against the context's
    trust store. *)
Record Certificate := { subject : string; verifies : bool }.

Inductive HandshakeResult := HsDone | HsSSLError | HsBlocks.

(** [SSLSocket.do_handshake] on the server side of a blocking socket. *)
Definition do_handshake (ctx : SSLContext) (flight : Flight)
    (client_cert : option Certificate) : HandshakeResult :=
  match flight with
  | Nothing => HsBlocks
  | NotTLS => HsSSLError
  | ClientHello false => HsSSLError
  | ClientHello true =>
      match verify_mode ctx with
      | CERT_NONE => HsDone (* no certificate is requested *)
      | CERT_OPTIONAL =>
          match client_cert with
          | None => HsDone
          | Some c => if verifies c then HsDone else HsSSLError
          end
      | CERT_REQUIRED =>
          match client_cert with
          | None => HsSSLError
          | Some c => if verifies c then HsDone else HsSSLError
          end
      end
  end.

End ssl.

(** ** socketserver *)

Module socketserver.

Import http_server.

(** A listening socket: the one [TCPServer.__init__] creates, or the
    [SSLSocket] put in its place. *)
Inductive Socket :=
| PlainSocket
| WrappedSocket (s : ssl.SSLSocket).

Record TCPServer := {
  server_address : string * N;
  socket : Socket }.

(** A pending connection, described by what its peer will do: its first
    flight, its certificate if it has one, what the handler would read
    inside the TLS session and what it would read from the bare TCP
    stream; [clock] is the time when the connection is taken up. *)
Record Connection := {
  peer : N;
  first_flight : ssl.Flight;
  client_cert : option ssl.Certificate;
  tls_rfile : list Input;
  raw_rfile : list Input;
  clock : Z }.

Inductive Event :=
| Handshake (peer : N)
| HandshakeFailed (peer : N)
| Handled (peer : N) (secure : bool) (o : Outcome).

Definition event_peer (e : Event) : N :=
  match e with
  | Handshake p | HandshakeFailed p | Handled p _ _ => p
  end.

(** The process around the server: the library, the file system and the
    working directory. *)
Record Process := {
  platform : Platform;
  filesystem : FileSystem;
  getcwd : str }.

Inductive Accepted :=
| Request (secure : bool) (rfile : list Input)
| AcceptOSError
| AcceptBlocks.

Section Server.

Variable proc : Process.

(** [get_request], that is [self.socket.accept()]: on a wrapped socket the new
    connection is wrapped too, with the context of the listening socket, and
    its handshake is done before [accept] returns. *)
Definition get_request (srv : TCPServer) (c : Connection) :
    list Event * Accepted :=
  match socket srv with
  | PlainSocket => ([], Request false (raw_rfile c))
  | WrappedSocket s =>
      match ssl.do_handshake (ssl.context s) (first_flight c)
              (client_cert c) with
      | ssl.HsDone => ([Handshake (peer c)], Request true (tls_rfile c))
      | ssl.HsSSLError => ([HandshakeFailed (peer c)], AcceptOSError)
      | ssl.HsBlocks => ([], AcceptBlocks)
      end
  end.

(** [finish_request]: instantiate the handler class on the connection. *)
Definition finish_request (c : Connection) (rfile : list Input) : Outcome :=
  SimpleHTTPRequestHandler (platform proc) (filesystem proc) (clock c)
    (getcwd proc) rfile.

(** [_handle_request_noblock] for the connection at the head of the listen
    queue.  The boolean tells whether the call returns; [process_request]
    is the synchronous one of [BaseServer], and an exception of the handler
    is reported by [handle_error] and goes no further. *)
Definition _handle_request_noblock (srv : TCPServer) (c : Connection) :
    list Event * bool :=
  match get_request srv c with
  | (evs, AcceptOSError) => (evs, true)
  | (evs, AcceptBlocks) => (evs, false)
  | (evs, Request secure rfile) =>
      let o := finish_request c rfile in
      (evs ++ [Handled (peer c) secure o],
       match o with
       | Returned _ => true
       | Blocks _ => false
       end)
  end.

Inductive LoopState :=
| Polling
| BlockedOn (peer : N).

(** [serve_forever] over the connections that arrive, in the order the
    listen queue hands them out.  Nothing sets the shutdown flag, so the loop
    ends only by blocking. *)
Fixpoint serve_forever (srv : TCPServer) (backlog : list Connection) :
    list Event * LoopState :=
  match backlog with
  | [] => ([], Polling)
  | c :: rest =>
      match _handle_request_noblock srv c with
      | (evs, true) =>
          let '(evs', st) := serve_forever srv rest in
          (evs ++ evs', st)
      | (evs, false) => (evs, BlockedOn (peer c))
      end
  end.

End Server.

End socketserver.

(** ** The script *)

Import socketserver.

(** The machine the script is started on. *)
Record World := {
  process : Process;
  (** [socket.bind((host, port))] followed by [socket.getsockname()]: the
      exception of [bind], or the address the socket is bound to. *)
  socket_bind : string -> N -> Exception + (string * N);
  (** [socket.listen(backlog)] *)
  socket_listen : N -> option Exception;
  loader : ssl.Loader }.

Definition request_queue_size : N := 5.

(** [HTTPServer(server_address, RequestHandlerClass)]: [TCPServer.__init__]
    creates the socket, [server_bind] binds it and stores the address the
    socket reports, [server_activate] listens; when either step raises, the
    socket is closed and the exception goes on. *)
Definition HTTPServer (w : World) (server_address : string * N) :
    Exception + TCPServer :=
  match socket_bind w (fst server_address) (snd server_address) with
  | inl e => inl e
  | inr bound =>
      match socket_listen w request_queue_size with
      | Some e => inl e
      | None => inr {| server_address := bound; socket := PlainSocket |}
      end
  end.

(** How a run of the script ends or goes on. *)
Inductive Run :=
| Exited (status : N) (traceback : list string)
| Serving (httpd : TCPServer) (events : list Event) (st : LoopState).

(** An exception that reaches the top level: the interpreter prints the
    traceback on standard error and exits with status 1.  The traceback is
    kept without its frame lines: its heading, and its last line with the
    exception's type and message. *)
Definition uncaught (e : Exception) : Run :=
  Exited 1 [ "Traceback (most recent call last):"%string;
             (exc_type e ++ ": " ++ exc_message e)%string ].

(** [run_server.py], with the connections that will arrive. *)
Definition run_server (w : World) (backlog : list Connection) : Run :=
  match HTTPServer w ("localhost"%string, 4443%N) with
  | inl e => uncaught e
  | inr httpd =>
      match ssl.wrap_socket (loader w)
              (Some "./localhost-key.pem"%string)
              (Some "./localhost.pem"%string)
              true
              ssl.default_cert_reqs None None with
      | inl e => uncaught e
      | inr s =>
          let httpd := {| server_address := server_address httpd;
                          socket := WrappedSocket s |} in
          let '(events, st) := serve_forever (process w) httpd backlog in
          Serving httpd events st
      end
  end.

(** ** Lexical containment of paths *)

Definition no_sep (w : str) : bool :=
  forallb (fun x => negb (N.eqb x sep)) w.

(** A single file or directory name: not empty, no separator, neither [.]
    nor [..]. *)
Definition simple_name (w : str) : bool :=
  nonempty w && no_sep w
  && negb (str_eqb w posixpath.curdir) && negb (str_eqb w posixpath.pardir).

(** The components of a path. *)
Definition segments (p : str) : list str := filter nonempty (split sep p).

(** Following one component from the directory reached so far (innermost
    name first): [.] stays, [..] goes up and stays at the top there. *)
Definition walk (stack : list str) (seg : str) : list str :=
  if str_eqb seg posixpath.curdir then stack
  else if str_eqb seg posixpath.pardir then tl stack
  else seg :: stack.

(** The directory chain a path denotes when no component is a symbolic
    link. *)
Definition resolve (p : str) : list str :=
  rev (fold_left walk (segments p) []).

Fixpoint is_prefix (a b : list str) : bool :=
  match a, b with
  | [], _ => true
  | x :: a', y :: b' => str_eqb x y && is_prefix a' b'
  | _ :: _, [] => false
  end.

(** [p] is [root] or lies below it. *)
Definition descendant (root p : str) : Prop :=
  is_prefix (resolve root) (resolve p) = true.

(** [holds I m Q]: the method [m] keeps the invariant [I] of the handler,
    whether it returns or raises, and what it returns satisfies [Q]. *)
Definition holds {A : Type} (I : http_server.Handler -> Prop)
    (m : http_server.M A) (Q : A -> Prop) : Prop :=
  forall h, I h ->
    match m h with
    | http_server.Done a h' => I h' /\ Q a
    | http_server.Raised _ h' => I h'
    end.

(** The system calls that hand content to the client. *)
Definition serves (c : Syscall) : bool :=
  match c with
  | SysOpen _ | SysListdir _ => true
  | _ => false
  end.

(** ** Reading a response off the wire *)

Import http_server.

Definition status (w : list WireItem) : option N :=
  match w with
  | StatusLine _ code _ :: _ => Some code
  | _ => None
  end.

Definition header_lines (w : list WireItem) : list (string * string) :=
  flat_map (fun i => match i with
                     | HeaderLine k v => [(k, v)]
                     | _ => []
                     end) w.

Definition body (w : list WireItem) : bytes :=
  flat_map (fun i => match i with Payload d => d | _ => [] end) w.

Definition header (name : string) (w : list WireItem) : option string :=
  get_header name (header_lines w).

(** A handler instance as [finish_request] creates it, with the request
    that [parse_request] stored. *)
Definition request (directory : str) (command path : string)
    (headers : list (string * string)) : Handler :=
  mkHandler command path headers directory true [] [] [].

(** The page [send_error(404, "File not found")] puts in the body. *)
Definition file_not_found_page : bytes :=
  utf8_encode_replace
    (error_message_format 404
       (html_escape (pystr "File not found"))
       (html_escape (pystr "Nothing matches the given URI"))).

(** The status line and the headers of a response, without its body. *)
Definition head (w : list WireItem) : list WireItem :=
  filter (fun i => match i with Payload _ => false | _ => true end) w.

(** ** A concrete platform and file system for worked examples *)

Module Reference.

Definition latin1 (s : str) : string :=
  string_of_list_ascii (List.map ascii_of_N s).

Definition hexval (c : char) : option N :=
  (if (48 <=? c) && (c <=? 57) then Some (c - 48)
   else if (65 <=? c) && (c <=? 70) then Some (c - 55)
   else if (97 <=? c) && (c <=? 102) then Some (c - 87)
   else None)%N.

(** Percent-decoding.  Agrees with [urllib.parse.unquote] on strings whose
    escapes all stand for ASCII characters. *)
Fixpoint unquote_ascii (s : str) : str :=
  match s with
  | [] => []
  | c :: s' =>
      if N.eqb c (ch "%") then
        match s' with
        | a :: b :: rest =>
            match hexval a, hexval b with
            | Some x, Some y =>
                if (16 * x + y <? 128)%N
                then (16 * x + y)%N :: unquote_ascii rest
                else c :: unquote_ascii s'
            | _, _ => c :: unquote_ascii s'
            end
        | _ => c :: unquote_ascii s'
        end
      else c :: unquote_ascii s'
  end.

Fixpoint after (c : char) (s : str) : str :=
  match s with
  | [] => []
  | x :: s' => if N.eqb x c then s' else after c s'
  end.

(** Agrees with [urllib.parse.urlsplit] on origin-form targets: strings that
    start with one slash and hold no control character or space. *)
Definition urlsplit_origin (url : string) : SplitResult :=
  let u := pystr url in
  let nofrag := before (ch "#") u in
  {| sr_scheme := ""; sr_netloc := "";
     sr_path := latin1 (before (ch "?") nofrag);
     sr_query := latin1 (after (ch "?") nofrag);
     sr_fragment := latin1 (after (ch "#") u) |}.

(** Agrees with [urllib.parse.urlunsplit] when scheme and host are empty. *)
Definition urlunsplit_origin (r : SplitResult) : string :=
  (sr_path r
   ++ (if String.eqb (sr_query r) "" then "" else "?" ++ sr_query r)
   ++ (if String.eqb (sr_fragment r) "" then "" else "#" ++ sr_fragment r))
  %string.

Definition hexdigit (n : N) : char :=
  (if n <? 10 then 48 + n else 55 + n)%N.

Definition always_safe (c : char) : bool :=
  ((48 <=? c) && (c <=? 57) || (65 <=? c) && (c <=? 90)
   || (97 <=? c) && (c <=? 122)
   || (c =? 95) || (c =? 46) || (c =? 45) || (c =? 126) || (c =? 47))%N.

(** Agrees with [urllib.parse.quote] on text without surrogates. *)
Definition quote_utf8 (s : str) : str :=
  flat_map (fun c =>
    if always_safe c then [c]
    else flat_map (fun b => let n := Byte.to_N b in
                            [ch "%"; hexdigit (n / 16); hexdigit (n mod 16)])
                  (utf8_encode_char c)) s.

(** Agrees with [guess_type] on names with these extensions or none. *)
Definition guess_type_small (p : str) : string :=
  if endswith (pystr ".html") p then "text/html"
  else if endswith (pystr ".htm") p then "text/html"
  else if endswith (pystr ".txt") p then "text/plain"
  else "application/octet-stream".

(** Days since 1970-01-01 to year, month, day, and back (proleptic
    Gregorian calendar). *)
Definition civil_from_days (z : Z) : Z * Z * Z :=
  (let z := z + 719468 in
   let era := z / 146097 in
   let doe := z - era * 146097 in
   let yoe := (doe - doe / 1460 + doe / 36524 - doe / 146096) / 365 in
   let doy := doe - (365 * yoe + yoe / 4 - yoe / 100) in
   let mp := (5 * doy + 2) / 153 in
   let d := doy - (153 * mp + 2) / 5 + 1 in
   let m := if mp <? 10 then mp + 3 else mp - 9 in
   let y := yoe + era * 400 + (if m <=? 2 then 1 else 0) in
   (y, m, d))%Z.

Definition days_from_civil (y m d : Z) : Z :=
  (let y := if m <=? 2 then y - 1 else y in
   let era := y / 400 in
   let yoe := y - era * 400 in
   let doy := (153 * (if 2 <? m then m - 3 else m + 9) + 2) / 5 + d - 1 in
   let doe := yoe * 365 + yoe / 4 - yoe / 100 + doy in
   era * 146097 + doe - 719468)%Z.

Definition day_names : list string :=
  ["Sun"; "Mon"; "Tue"; "Wed"; "Thu"; "Fri"; "Sat"]%string.

Definition month_names : list string :=
  ["Jan"; "Feb"; "Mar"; "Apr"; "May"; "Jun";
   "Jul"; "Aug"; "Sep"; "Oct"; "Nov"; "Dec"]%string.

Definition digits (width : nat) (n : Z) : string :=
  let s := string_of_N (Z.to_N n) in
  (string_of_list_ascii (repeat "0"%char (width - String.length s)) ++ s)
  %string.

(** Agrees with [email.utils.formatdate(t, usegmt=True)] for the years 1 to
    9999; [t] in microseconds. *)
Definition formatdate_gmt (t : Z) : string :=
  (let secs := t / 1000000 in
   let days := secs / 86400 in
   let rem := secs mod 86400 in
   let '(y, m, d) := civil_from_days days in
   nth (Z.to_nat ((days + 4) mod 7)) day_names ""%string ++ ", "
   ++ digits 2 d ++ " "
   ++ nth (Z.to_nat (m - 1)) month_names ""%string ++ " "
   ++ digits 4 y ++ " "
   ++ digits 2 (rem / 3600) ++ ":" ++ digits 2 (rem mod 3600 / 60) ++ ":"
   ++ digits 2 (rem mod 60) ++ " GMT")%Z%string.

Definition parse_digits (s : str) : option Z :=
  match s with
  | [] => None
  | _ =>
      if forallb (fun c => (48 <=? c) && (c <=? 57))%N s
      then Some (fold_left (fun acc c => 10 * acc + Z.of_N (c - 48))%Z s 0%Z)
      else None
  end.

Fixpoint index_of (x : str) (l : list string) (i : Z) : option Z :=
  match l with
  | [] => None
  | y :: l' => if str_eqb x (pystr y) then Some i else index_of x l' (i + 1)%Z
  end.

(** Reads a date in the form [Sat, 01 Jan 2050 00:00:00 GMT].  Agrees with
    [email.utils.parsedate_to_datetime] on such strings; the other forms
    that function accepts are answered [None] here. *)
Definition parsedate_imf (value : string) : option datetime :=
  match split (ch " ") (pystr value) with
  | [_; dd; mon; yyyy; hms; zone] =>
      match parse_digits dd, index_of mon month_names 1, parse_digits yyyy,
            List.map parse_digits (split (ch ":") hms) with
      | Some d, Some m, Some y, [Some hh; Some mi; Some ss] =>
          let days := days_from_civil y m d in
          if (let '(y', m', d') := civil_from_days days in
              (y' =? y) && (m' =? m) && (d' =? d) && (1 <=? y) && (y <=? 9999)
              && (hh <? 24) && (mi <? 60) && (ss <? 60))%Z
             && str_eqb zone (pystr "GMT")
          then Some {| dt_wall := (days * 86400 + hh * 3600 + mi * 60 + ss)%Z;
                       dt_tzinfo := TzUTC |}
          else None
      | _, _, _, _ => None
      end
  | _ => None
  end.

(** Agrees with [str.lower] on ASCII text. *)
Definition lower_ascii (s : str) : str :=
  List.map (fun c => if (65 <=? c) && (c <=? 90) then c + 32 else c)%N s.

(** UTF-8 with the [surrogateescape] handler: the escapes U+DC80..U+DCFF
    give back their byte, other surrogates cannot be encoded. *)
Fixpoint encode_surrogateescape (s : str) : option bytes :=
  match s with
  | [] => Some []
  | c :: s' =>
      match encode_surrogateescape s' with
      | None => None
      | Some bs =>
          (if (56448 <=? c) && (c <=? 56575) then
             Some (byte_of_N (c - 56320) :: bs)
           else if (55296 <=? c) && (c <=? 57343) then None
           else Some (utf8_encode_char c ++ bs))%N
      end
  end.

(** Agrees with [repr] on printable ASCII without quotes or backslashes. *)
Definition repr_plain (s : string) : string :=
  (String (ascii_of_N 39) s ++ String (ascii_of_N 39) "")%string.

Definition cpython : Platform := {|
  unquote_surrogatepass := fun s => Some (unquote_ascii s);
  unquote := unquote_ascii;
  urlsplit := urlsplit_origin;
  urlunsplit := urlunsplit_origin;
  quote := quote_utf8;
  guess_type := guess_type_small;
  formatdate := formatdate_gmt;
  parsedate_to_datetime := parsedate_imf;
  lower := lower_ascii;
  filesystemencoding := "utf-8";
  fs_encode := encode_surrogateescape;
  sys_version := "Python/3.11.2";
  repr := repr_plain |}.

(** A file system given by a table from absolute paths to what is there. *)
Inductive Node :=
| RegularFile (f : File)
| Unreadable
| Directory (names : list str).

Fixpoint lookup (p : str) (tbl : list (string * Node)) : option Node :=
  match tbl with
  | [] => None
  | (q, n) :: tbl' => if str_eqb p (pystr q) then Some n else lookup p tbl'
  end.

(** A path with trailing slashes names what the path without them names,
    provided that is a directory. *)
Definition stat (tbl : list (string * Node)) (p : str) : option Node :=
  if endswith [sep] p then
    let q := rstrip_by (N.eqb sep) p in
    match lookup (if nonempty q then q else [sep]) tbl with
    | Some (Directory names) => Some (Directory names)
    | _ => None
    end
  else lookup p tbl.

Definition table_fs (tbl : list (string * Node)) : FileSystem := {|
  isdir := fun p => match stat tbl p with
                    | Some (Directory _) => true
                    | _ => false
                    end;
  isfile := fun p => match stat tbl p with
                     | Some (RegularFile _) | Some Unreadable => true
                     | _ => false
                     end;
  islink := fun _ => false;
  open_rb := fun p => if existsb (N.eqb 0) p then OpenValueError
                      else match stat tbl p with
                           | Some (RegularFile f) => Opened f
                           | _ => OpenOSError
                           end;
  listdir := fun p => match stat tbl p with
                      | Some (Directory names) => Some names
                      | _ => None
                      end |}.

(** A small site: two files, one of them unreadable, a directory with an
    index page and an empty directory. *)
Definition site : list (string * Node) :=
  [ ("/srv", Directory [pystr "b.txt"; pystr "A.txt"; pystr "docs";
                        pystr "pub"]);
    ("/srv/b.txt", RegularFile {| f_data := [Byte.x68; Byte.x69];
                                  st_mtime := 1700000000000000 |});
    ("/srv/A.txt", Unreadable);
    ("/srv/docs", Directory [pystr "index.html"]);
    ("/srv/docs/index.html", RegularFile {| f_data := [Byte.x3c];
                                            st_mtime := 0 |});
    ("/srv/pub", Directory []) ]%string.

Definition disk : FileSystem := table_fs site.

(** 2023-11-14 22:13:21 GMT *)
Definition today : Z := 1700000001000000.

(** The wire after one request to the site. *)
Definition ask (method target : string) (hs : list (string * string)) :
    list http_server.WireItem :=
  http_server.wfile
    (http_server.state_of
       (http_server.handle_one_request cpython disk today
          (http_server.mkHandler method target hs (pystr "/srv") true
             [] [] []))).

End Reference.

(** ** Observations on a run *)

(** The same connection with another client certificate, or none. *)
Definition with_client_cert (cert : option ssl.Certificate)
    (c : Connection) : Connection :=
  {| peer := peer c; first_flight := first_flight c; client_cert := cert;
     tls_rfile := tls_rfile c; raw_rfile := raw_rfile c; clock := clock c |}.

(** The handler instance behind an outcome. *)
Definition handler_of (o : Outcome) : Handler :=
  match o with
  | Returned r => state_of r
  | Blocks h => h
  end.

(** Whether the loop comes back from a connection. *)
Definition returns (proc : Process) (srv : TCPServer) (c : Connection) :
    bool :=
  snd (_handle_request_noblock proc srv c).

(** Every handled connection in a trace was read through TLS and comes right
    after the handshake of the same peer. *)
Definition handshake_before_handling (events : list Event) : Prop :=
  forall pre p secure o post,
    events = pre ++ Handled p secure o :: post ->
    secure = true /\ exists pre', pre = pre' ++ [Handshake p].

(** The server object once the script has replaced its socket, [bound]
    being the address its socket reports. *)
Definition httpd_of_script (bound : string * N) : TCPServer := {|
  server_address := bound;
  socket := WrappedSocket
    {| ssl.context :=
         {| ssl.verify_mode := ssl.CERT_NONE;
            ssl.certfile := Some "./localhost.pem"%string;
            ssl.keyfile := Some "./localhost-key.pem"%string;
            ssl.ca_certs := None;
            ssl.ciphers := None |};
       ssl.server_side := true |} |}.

(** ** Observations on a response *)

(** After the status line and the two standard headers: more headers, the
    blank line, and then nothing or one body. *)
Fixpoint headers_then_body (w : list WireItem) : bool :=
  match w with
  | HeaderLine _ _ :: rest => headers_then_body rest
  | EndOfHeaders :: [] => true
  | EndOfHeaders :: [Payload _] => true
  | _ => false
  end.

(** One complete response on the wire: an HTTP/1.0 status line, [Server] and
    [Date] first among the headers, the blank line, at most one body. *)
Definition well_formed (w : list WireItem) : bool :=
  match w with
  | StatusLine version _ _ :: HeaderLine k1 _ :: HeaderLine k2 _ :: rest =>
      String.eqb version "HTTP/1.0" && String.eqb k1 "Server"
      && String.eqb k2 "Date" && headers_then_body rest
  | _ => false
  end.

(** The status codes [SimpleHTTPRequestHandler] sends. *)
Definition sent_statuses : list N := [200; 301; 304; 404; 501]%N.

Definition status_among (codes : list N) (w : list WireItem) : bool :=
  match status w with
  | Some code => existsb (N.eqb code) codes
  | None => false
  end.


(** No character of [s] is [c]. *)
Definition lacks (c : char) (s : str) : bool :=
  forallb (fun x => negb (N.eqb x c)) s.

(** Two header blocks that differ at most in the letter case of the header
    names. *)
Definition same_headers (hs hs' : list (string * string)) : Prop :=
  Forall2 (fun kv kv' => same_name (fst kv) (fst kv') = true
                         /\ snd kv = snd kv') hs hs'.

(** ** A machine for worked examples *)

Module Machine.

Import Reference.

(** Both PEM files are in place and the port is free. *)
Definition ready : World := {|
  process := {| platform := cpython; filesystem := disk;
                getcwd := pystr "/srv" |};
  socket_bind := fun _ port => inr ("127.0.0.1"%string, port);
  socket_listen := fun _ => None;
  loader := {| ssl.load_cert_chain := fun _ _ => None;
               ssl.load_verify_locations := fun _ => None;
               ssl.set_ciphers := fun _ => None |} |}.

(** Port 4443 is taken. *)
Definition port_in_use : World := {|
  process := process ready;
  socket_bind := fun _ port =>
    if N.eqb port 4443
    then inl {| exc_type := "OSError";
                exc_message := "[Errno 98] Address already in use" |}
    else inr ("127.0.0.1"%string, port);
  socket_listen := socket_listen ready;
  loader := loader ready |}.

(** The certificate file is missing. *)
Definition no_certificate : World := {|
  process := process ready;
  socket_bind := socket_bind ready;
  socket_listen := socket_listen ready;
  loader := {| ssl.load_cert_chain := fun _ _ =>
                 Some {| exc_type := "FileNotFoundError";
                         exc_message :=
                           "[Errno 2] No such file or directory" |};
               ssl.load_verify_locations := fun _ => None;
               ssl.set_ciphers := fun _ => None |} |}.

(** The server object of a run on [ready]. *)
Definition httpd : TCPServer := httpd_of_script ("127.0.0.1"%string, 4443%N).

(** A browser asking for [/b.txt] over TLS. *)
Definition browser (id : N) : Connection := {|
  peer := id;
  first_flight := ssl.ClientHello true;
  client_cert := None;
  tls_rfile := [Parsed "GET" "/b.txt" []];
  raw_rfile := [Rejected []];
  clock := today |}.

(** A client that connects and never sends a byte. *)
Definition silent (id : N) : Connection := {|
  peer := id;
  first_flight := ssl.Nothing;
  client_cert := None;
  tls_rfile := [];
  raw_rfile := [Stalled];
  clock := today |}.

(** A client that sends its request without TLS. *)
Definition plaintext (id : N) : Connection := {|
  peer := id;
  first_flight := ssl.NotTLS;
  client_cert := None;
  tls_rfile := [];
  raw_rfile := [Parsed "GET" "/b.txt" []];
  clock := today |}.

End Machine.

(** * Properties *)

Arguments N.eqb : simpl never.

(** ** Strings *)

Lemma str_eqb_eq (a b : str) : str_eqb a b = true <-> a = b.
Proof.
  revert b; induction a as [|x a IH]; intros [|y b]; simpl;
    try (split; [discriminate | discriminate]); try tauto.
  rewrite andb_true_iff, N.eqb_eq, IH.
  split; [intros [-> ->]; reflexivity | intros [= -> ->]; auto].
Qed.

Lemma str_eqb_refl (a : str) : str_eqb a a = true.
Proof. apply str_eqb_eq; reflexivity. Qed.

Lemma split_not_nil (c : char) (s : str) : split c s <> [].
Proof.
  induction s as [|x s IH]; simpl; [discriminate|].
  destruct (N.eqb x c); [discriminate|].
  destruct (split c s); discriminate.
Qed.

(** Splitting distributes over a separator. *)
Lemma split_app_sep (c : char) (a b : str) :
  split c (a ++ c :: b) = split c a ++ split c b.
Proof.
  induction a as [|x a IH]; simpl.
  - rewrite N.eqb_refl; reflexivity.
  - destruct (N.eqb x c); [rewrite IH; reflexivity|].
    rewrite IH.
    destruct (split c a) as [|w ws] eqn:E; [|reflexivity].
    exfalso; exact (split_not_nil c a E).
Qed.

Lemma split_no_sep (w : str) : no_sep w = true -> split sep w = [w].
Proof.
  induction w as [|x w IH]; simpl; [reflexivity|].
  rewrite andb_true_iff; intros [Hx Hw].
  apply negb_true_iff in Hx; rewrite Hx, (IH Hw); reflexivity.
Qed.

(** The pieces [split] returns hold no separator. *)
Lemma split_pieces_no_sep (s : str) :
  Forall (fun w => no_sep w = true) (split sep s).
Proof.
  induction s as [|x s IH]; simpl; [repeat constructor|].
  destruct (N.eqb x sep) eqn:E; [constructor; [reflexivity | exact IH]|].
  destruct (split sep s) as [|w ws];
    [repeat constructor; simpl; now rewrite E|].
  inversion IH; subst; constructor; [simpl; rewrite E; assumption | assumption].
Qed.

Lemma endswith_sep_inv (a : str) :
  endswith [sep] a = true -> exists a', a = a' ++ [sep].
Proof.
  unfold endswith; cbn [rev app]; intros H.
  destruct (rev a) as [|y r] eqn:E; cbn [startswith] in H; [discriminate|].
  rewrite andb_true_r in H; apply N.eqb_eq in H; subst y.
  exists (rev r).
  rewrite <- (rev_involutive a), E; reflexivity.
Qed.

(** ** Path components *)

Lemma segments_app_sep (a b : str) :
  segments (a ++ sep :: b) = segments a ++ segments b.
Proof. unfold segments; rewrite split_app_sep, filter_app; reflexivity. Qed.

Lemma segments_nil : segments [] = [].
Proof. reflexivity. Qed.

Lemma segments_name (w : str) :
  nonempty w = true -> no_sep w = true -> segments w = [w].
Proof.
  intros Hn Hs; unfold segments; rewrite (split_no_sep w Hs); simpl.
  rewrite Hn; reflexivity.
Qed.

Lemma segments_trailing_sep (a : str) : segments (a ++ [sep]) = segments a.
Proof. rewrite segments_app_sep, segments_nil, app_nil_r; reflexivity. Qed.

Lemma startswith_sep_name (w : str) :
  nonempty w = true -> no_sep w = true -> startswith [sep] w = false.
Proof.
  destruct w as [|x w]; simpl; [discriminate|].
  intros _; rewrite andb_true_iff; intros [Hx _].
  apply negb_true_iff in Hx.
  rewrite N.eqb_sym, Hx; reflexivity.
Qed.

(** Joining a name to a path adds one component. *)
Lemma segments_join (a w : str) :
  nonempty w = true -> no_sep w = true ->
  segments (posixpath.join a w) = segments a ++ [w].
Proof.
  intros Hn Hs; unfold posixpath.join.
  rewrite (startswith_sep_name w Hn Hs).
  destruct a as [|x a]; simpl negb; simpl orb.
  - simpl; apply segments_name; assumption.
  - destruct (endswith [sep] (x :: a)) eqn:E.
    + destruct (endswith_sep_inv _ E) as [a' ->].
      rewrite <- app_assoc; simpl.
      rewrite segments_app_sep, segments_trailing_sep,
        (segments_name w Hn Hs); reflexivity.
    + rewrite segments_app_sep, (segments_name w Hn Hs); reflexivity.
Qed.

Lemma walk_simple_name (stack : list str) (w : str) :
  simple_name w = true -> walk stack w = w :: stack.
Proof.
  unfold simple_name, walk; rewrite !andb_true_iff.
  intros [[_ H1] H2].
  apply negb_true_iff in H1, H2; rewrite H1, H2; reflexivity.
Qed.

Lemma resolve_join (a w : str) :
  simple_name w = true ->
  resolve (posixpath.join a w) = resolve a ++ [w].
Proof.
  intros H; unfold resolve.
  assert (Hn : nonempty w = true /\ no_sep w = true).
  { unfold simple_name in H; rewrite !andb_true_iff in H; tauto. }
  destruct Hn as [Hn Hs].
  rewrite (segments_join a w Hn Hs), fold_left_app; simpl.
  rewrite (walk_simple_name _ w H); reflexivity.
Qed.

Lemma resolve_trailing_sep (a : str) : resolve (a ++ [sep]) = resolve a.
Proof. unfold resolve; rewrite segments_trailing_sep; reflexivity. Qed.

Lemma is_prefix_refl (l : list str) : is_prefix l l = true.
Proof. induction l; simpl; [|rewrite str_eqb_refl]; auto. Qed.

Lemma is_prefix_app (a b c : list str) :
  is_prefix a b = true -> is_prefix a (b ++ c) = true.
Proof.
  revert b; induction a as [|x a IH]; intros [|y b]; simpl; auto;
    [discriminate|].
  rewrite !andb_true_iff; intros [-> H]; auto.
Qed.

Lemma descendant_refl (root : str) : descendant root root.
Proof. apply is_prefix_refl. Qed.

Lemma descendant_join (root p w : str) :
  simple_name w = true -> descendant root p ->
  descendant root (posixpath.join p w).
Proof.
  unfold descendant; intros Hw H.
  rewrite (resolve_join p w Hw); apply is_prefix_app; exact H.
Qed.

Lemma descendant_trailing_sep (root p : str) :
  descendant root p -> descendant root (p ++ [sep]).
Proof. unfold descendant; rewrite resolve_trailing_sep; auto. Qed.

(** A piece without separator has an empty [dirname]. *)
Lemma dirname_no_sep (w : str) : no_sep w = true -> posixpath.dirname w = [].
Proof.
  intros H; unfold posixpath.dirname.
  assert (E : dropWhile (fun c => negb (N.eqb c sep)) (rev w) = []).
  { assert (Hr : no_sep (rev w) = true).
    { unfold no_sep in *; rewrite forallb_forall in *.
      intros x Hx; apply H, in_rev; exact Hx. }
    revert Hr; generalize (rev w); intros l.
    induction l as [|x l IH]; simpl; [reflexivity|].
    rewrite andb_true_iff; intros [-> Hl]; auto. }
  rewrite E; reflexivity.
Qed.

(** The loop of [translate_path] only ever appends names below the
    directory it starts from. *)
Lemma translate_loop_descendant (root : str) (words : list str) (p : str) :
  Forall (fun w => no_sep w = true) words ->
  Forall (fun w => nonempty w = true) words ->
  descendant root p ->
  descendant root
    (fold_left
       (fun path word =>
          if nonempty (posixpath.dirname word)
             || str_eqb word posixpath.curdir
             || str_eqb word posixpath.pardir
          then path
          else posixpath.join path word)
       words p).
Proof.
  intros Hs Hn; revert p.
  induction words as [|w ws IH]; simpl; intros p Hp; [exact Hp|].
  inversion Hs as [|? ? Hw Hs']; inversion Hn as [|? ? Hw' Hn']; subst.
  apply IH; try assumption.
  rewrite (dirname_no_sep w Hw); simpl.
  destruct (str_eqb w posixpath.curdir) eqn:E1; simpl; [exact Hp|].
  destruct (str_eqb w posixpath.pardir) eqn:E2; simpl; [exact Hp|].
  apply descendant_join; [|exact Hp].
  unfold simple_name; rewrite Hw, Hw', E1, E2; reflexivity.
Qed.

Lemma translate_path_descendant (P : Platform) (directory : str)
    (path : string) :
  descendant directory (translate_path P directory path).
Proof.
  unfold translate_path.
  set (words := filter nonempty (split sep _)).
  assert (Hs : Forall (fun w => no_sep w = true) words).
  { unfold words; apply Forall_forall; intros w Hw.
    apply filter_In in Hw; destruct Hw as [Hw _].
    pose proof (split_pieces_no_sep
      (posixpath.normpath
         match unquote_surrogatepass P
                 (before (ch "#") (before (ch "?") (pystr path))) with
         | Some p => p
         | None => unquote P (before (ch "#") (before (ch "?") (pystr path)))
         end)) as HF.
    rewrite Forall_forall in HF; apply HF; exact Hw. }
  assert (Hn : Forall (fun w => nonempty w = true) words).
  { unfold words; apply Forall_forall; intros w Hw.
    apply filter_In in Hw; tauto. }
  pose proof (translate_loop_descendant directory words directory Hs Hn
                (descendant_refl directory)) as H.
  destruct (endswith [sep] (rstrip _));
    [apply descendant_trailing_sep|]; exact H.
Qed.

(** ** Invariants of handler methods *)

Section Invariant.

Variable I : Handler -> Prop.

Lemma holds_ret (A : Type) (a : A) (Q : A -> Prop) :
  Q a -> holds I (ret a) Q.
Proof. intros HQ h Hh; simpl; auto. Qed.

Lemma holds_raise (A : Type) (e : Exn) (Q : A -> Prop) :
  holds I (raise e) Q.
Proof. intros h Hh; simpl; auto. Qed.

Lemma holds_bind (A B : Type) (m : M A) (k : A -> M B) (Q : A -> Prop)
    (R : B -> Prop) :
  holds I m Q -> (forall a, Q a -> holds I (k a) R) -> holds I (bind m k) R.
Proof.
  intros Hm Hk h Hh; unfold bind.
  specialize (Hm h Hh); destruct (m h) as [a h'|e h']; [|exact Hm].
  destruct Hm as [Hh' Ha]; exact (Hk a Ha h' Hh').
Qed.

Lemma holds_self : holds I self I.
Proof. intros h Hh; simpl; auto. Qed.

Lemma holds_modify (f : Handler -> Handler) :
  (forall h, I h -> I (f h)) -> holds I (modify f) (fun _ => True).
Proof. intros Hf h Hh; simpl; auto. Qed.

Lemma holds_any (A : Type) (m : M A) (Q : A -> Prop) :
  holds I m Q -> holds I m (fun _ => True).
Proof.
  intros Hm h Hh; specialize (Hm h Hh).
  destruct (m h); tauto.
Qed.

Lemma holds_state (A : Type) (m : M A) (Q : A -> Prop) (h : Handler) :
  holds I m Q -> I h -> I (state_of (m h)).
Proof.
  intros Hm Hh; specialize (Hm h Hh).
  destruct (m h); simpl; tauto.
Qed.

End Invariant.

(** The invariant behind containment: the handler's directory is [root] and
    every path opened or listed so far lies in it. *)
Definition contained (root : str) (h : Handler) : Prop :=
  directory h = root /\
  forall c, In c (syscalls h) -> serves c = true ->
            descendant root (syscall_path c).

Section Containment.

Variable P : Platform.
Variable fs : FileSystem.
Variable now : Z.
Variable root : str.

Let Inv := contained root.
Let ok {A : Type} (m : M A) : Prop := holds Inv m (fun _ => True).

Lemma contained_wire (f : Handler -> Handler) :
  (forall h, directory (f h) = directory h) ->
  (forall h, syscalls (f h) = syscalls h) ->
  ok (modify f).
Proof.
  intros Hd Hs; apply holds_modify; intros h [H1 H2]; split.
  - rewrite Hd; exact H1.
  - rewrite Hs; exact H2.
Qed.

Lemma contained_traced (A : Type) (c : Syscall) (a : A) :
  (serves c = true -> descendant root (syscall_path c)) ->
  ok (traced c a).
Proof.
  intros Hc; unfold traced.
  eapply holds_bind; [|intros; apply holds_ret; exact Logic.I].
  apply holds_modify; intros h [H1 H2]; split; [exact H1|].
  simpl; intros c' Hin Hs; apply in_app_or in Hin.
  destruct Hin as [Hin|[<-|[]]]; auto.
Qed.

Ltac wire :=
  repeat lazymatch goal with
    | |- holds _ (modify _) _ => apply contained_wire; reflexivity
    | |- holds _ (ret _) _ => apply holds_ret; exact Logic.I
    | |- holds _ (raise _) _ => apply holds_raise
    | |- holds _ (bind _ _) _ => eapply holds_bind; [|intros ? _]
    | |- holds _ (if ?b then _ else _) _ => destruct b
    end.

Lemma contained_send_response_only (code : N) (message : option string) :
  ok (send_response_only code message).
Proof. unfold ok, send_response_only; wire. Qed.

Lemma contained_send_header (keyword value : string) :
  ok (send_header keyword value).
Proof. unfold ok, send_header; wire. Qed.

Lemma contained_end_headers : ok end_headers.
Proof. unfold ok, end_headers, flush_headers; wire. Qed.

Lemma contained_send_response (code : N) (message : option string) :
  ok (send_response P now code message).
Proof.
  unfold ok, send_response.
  eapply holds_bind; [apply contained_send_response_only|intros ? _].
  eapply holds_bind;
    [apply contained_send_header|intros ? _; apply contained_send_header].
Qed.

Lemma contained_wfile_write (data : bytes) : ok (wfile_write data).
Proof. unfold ok, wfile_write; wire. Qed.

Ltac methods :=
  repeat lazymatch goal with
    | |- holds _ (send_response _ _ _ _) _ => apply contained_send_response
    | |- holds _ (send_header _ _) _ => apply contained_send_header
    | |- holds _ end_headers _ => apply contained_end_headers
    | |- holds _ (wfile_write _) _ => apply contained_wfile_write
    | |- holds _ self _ => apply holds_self
    | |- holds _ (ret _) _ => apply holds_ret; exact Logic.I
    | |- holds _ (raise _) _ => apply holds_raise
    | |- holds _ (bind _ _) _ => eapply holds_bind; [|intros ? _]
    | |- holds _ (if ?b then _ else _) _ => destruct b
    | |- holds _ (match ?x with _ => _ end) _ => destruct x
    end.

Lemma contained_send_error (code : N) (message explain : option string) :
  ok (send_error P now code message explain).
Proof. unfold ok, send_error; methods. Qed.

Lemma contained_probe (p : str) :
  ok (os_path_isdir fs p) /\ ok (os_path_isfile fs p)
  /\ ok (os_path_islink fs p).
Proof.
  split; [|split]; apply contained_traced; discriminate.
Qed.

Lemma contained_open (p : str) : descendant root p -> ok (open_ fs p).
Proof. intros H; apply contained_traced; intros _; exact H. Qed.

Lemma contained_listdir (p : str) : descendant root p -> ok (os_listdir fs p).
Proof. intros H; apply contained_traced; intros _; exact H. Qed.

Lemma contained_list_directory_entries (p : str) (names : list str) :
  ok (list_directory_entries P fs p names).
Proof.
  induction names as [|name rest IH]; simpl.
  - apply holds_ret; exact Logic.I.
  - eapply holds_bind with (Q := fun _ => True); [|intros ? _].
    + unfold list_directory_entry.
      eapply holds_bind; [apply contained_probe|intros ? _].
      eapply holds_bind; [apply contained_probe|intros ? _].
      apply holds_ret; exact Logic.I.
    + eapply holds_bind; [exact IH|intros ? _].
      apply holds_ret; exact Logic.I.
Qed.

Ltac calls :=
  repeat lazymatch goal with
    | |- holds _ (send_response _ _ _ _) _ => apply contained_send_response
    | |- holds _ (send_error _ _ _ _ _) _ => apply contained_send_error
    | |- holds _ (send_header _ _) _ => apply contained_send_header
    | |- holds _ end_headers _ => apply contained_end_headers
    | |- holds _ (wfile_write _) _ => apply contained_wfile_write
    | |- holds _ (list_directory_entries _ _ _ _) _ =>
        apply contained_list_directory_entries
    | |- holds _ (os_path_isdir _ _) _ => apply contained_probe
    | |- holds _ (os_path_isfile _ _) _ => apply contained_probe
    | |- holds _ self _ => apply holds_self
    | |- holds _ (ret _) _ => apply holds_ret; exact Logic.I
    | |- holds _ (raise _) _ => apply holds_raise
    | |- holds _ (bind _ _) _ => eapply holds_bind; [|intros ? ?]
    | |- holds _ (if ?b then _ else _) _ => destruct b
    | |- holds _ (match ?x with _ => _ end) _ => destruct x
    end.

Lemma contained_list_directory (p : str) :
  descendant root p -> ok (list_directory P fs now p).
Proof.
  intros H; unfold ok, list_directory.
  eapply holds_bind; [apply contained_listdir; exact H|intros listing _].
  calls.
Qed.

Lemma contained_send_head_file (p : str) :
  descendant root p -> ok (send_head_file P fs now p).
Proof.
  intros H; unfold ok, send_head_file.
  destruct (endswith [sep] p); [calls|].
  eapply holds_bind; [apply contained_open; exact H|intros r _].
  calls.
Qed.

Lemma simple_name_index_html : simple_name (pystr "index.html") = true.
Proof. reflexivity. Qed.

Lemma simple_name_index_htm : simple_name (pystr "index.htm") = true.
Proof. reflexivity. Qed.

Lemma contained_send_head : ok (send_head P fs now).
Proof.
  unfold ok, send_head.
  eapply holds_bind; [apply holds_self|intros h [Hd _]].
  assert (Hp : descendant root
                 (translate_path P (directory h) (http_server.path h))).
  { rewrite Hd; apply translate_path_descendant. }
  eapply holds_bind; [apply contained_probe|intros d _].
  destruct d; [|apply contained_send_head_file; exact Hp].
  destruct (negb _); [calls|].
  eapply holds_bind; [apply contained_probe|intros i _].
  destruct i.
  { apply contained_send_head_file, descendant_join;
      [exact simple_name_index_html | exact Hp]. }
  eapply holds_bind; [apply contained_probe|intros i _].
  destruct i.
  { apply contained_send_head_file, descendant_join;
      [exact simple_name_index_htm | exact Hp]. }
  apply contained_list_directory; exact Hp.
Qed.

Lemma contained_handle_one_request : ok (handle_one_request P fs now).
Proof.
  unfold ok, handle_one_request, do_GET, do_HEAD.
  eapply holds_bind; [apply holds_self|intros h _].
  destruct (String.eqb (command h) "GET").
  { eapply holds_bind; [apply contained_send_head|intros f _].
    destruct f; [apply contained_wfile_write|apply holds_ret; exact Logic.I]. }
  destruct (String.eqb (command h) "HEAD").
  { eapply holds_bind; [apply contained_send_head|intros f _].
    apply holds_ret; exact Logic.I. }
  apply contained_send_error.
Qed.

End Containment.

(** ** C1: requests stay inside the document root *)

(** C1. For every request path, whatever [..] segments and escapes it
    holds, [translate_path] yields a path that is the document root or lies
    below it, and every file the handler opens and every directory it lists
    while answering the request lies there too.  Containment is lexical:
    the path is followed component by component from the root. *)
Theorem translate_path_stays_in_document_root :
  forall (P : Platform) (fs : FileSystem) (now : Z) (root : str)
         (method target : string) (hs : list (string * string)),
    descendant root (translate_path P root target)
    /\ Forall (fun c => descendant root (syscall_path c))
         (filter serves
            (syscalls
               (state_of
                  (handle_one_request P fs now
                     (request root method target hs))))).
Proof.
  intros; split; [apply translate_path_descendant|].
  assert (H : contained root
                (state_of
                   (handle_one_request P fs now
                      (request root method target hs)))).
  { eapply holds_state; [apply contained_handle_one_request|].
    split; [reflexivity|intros c []]. }
  destruct H as [_ H].
  apply Forall_forall; intros c Hc.
  apply filter_In in Hc; destruct Hc as [Hin Hs]; auto.
Qed.

Example normpath_collapses :
  posixpath.normpath (pystr "/a/./b//../c/") = pystr "/a/c"
  /\ posixpath.normpath (pystr "/../../etc/passwd") = pystr "/etc/passwd"
  /\ posixpath.normpath (pystr "a/../../b") = pystr "../b"
  /\ posixpath.normpath (pystr "//x/..") = pystr "//"
  /\ posixpath.normpath [] = pystr ".".
Proof. repeat split; reflexivity. Qed.

Example dirname_of_path :
  posixpath.dirname (pystr "/a/b//c") = pystr "/a/b"
  /\ posixpath.dirname (pystr "name") = [].
Proof. split; reflexivity. Qed.

(** Containment tells paths apart: climbing out of the root is not below
    it, going down and up again inside it is. *)
Example descendant_discriminates :
  ~ descendant (pystr "/srv") (pystr "/srv/../etc/passwd")
  /\ ~ descendant (pystr "/srv") (pystr "/srvx/a")
  /\ descendant (pystr "/srv") (pystr "/srv/a/../b/").
Proof.
  unfold descendant; repeat split; try reflexivity;
    intros H; vm_compute in H; discriminate H.
Qed.

Example translate_path_dotdot :
  translate_path Reference.cpython (pystr "/srv") "/../../etc/passwd"
  = pystr "/srv/etc/passwd".
Proof. reflexivity. Qed.

Example translate_path_escaped_dotdot :
  translate_path Reference.cpython (pystr "/srv") "/a/%2e%2e/%2E%2E/%2e%2e/x/"
  = pystr "/srv/x/".
Proof. reflexivity. Qed.

Example translate_path_query :
  translate_path Reference.cpython (pystr "/srv") "/docs/a.txt?../..#/.."
  = pystr "/srv/docs/a.txt".
Proof. reflexivity. Qed.

(** ** Running the handler on a fresh request *)

(** The plumbing of the monad and of the record, and nothing else. *)
Ltac glue :=
  cbv beta iota zeta delta
    [bind self ret raise modify traced os_path_isdir os_path_isfile
     os_path_islink open_ os_listdir command http_server.path headers
     directory close_connection headers_buffer wfile syscalls set_syscalls
     set_wfile set_headers_buffer set_close_connection state_of request].

Ltac get_request :=
  unfold handle_one_request; glue;
  change (String.eqb "GET" "GET") with true; cbv iota;
  unfold do_GET, send_head; glue.


(** ** C6: a missing file *)



Example file_not_found_page_text :
  Reference.latin1 (List.map Byte.to_N (firstn 15 file_not_found_page))
  = "<!DOCTYPE HTML>"%string
  /\ List.length file_not_found_page = 335%nat.
Proof. split; reflexivity. Qed.

(** ** C4: GET of an existing file *)

(** A conditional request for the readable file [/srv/b.txt], last modified
    in 2023, with a date in 2050. *)
Example conditional_get_is_304 :
  status (Reference.ask "GET" "/b.txt"
            [("If-Modified-Since", "Sat, 01 Jan 2050 00:00:00 GMT")]%string)
  = Some 304%N
  /\ body (Reference.ask "GET" "/b.txt"
             [("If-Modified-Since", "Sat, 01 Jan 2050 00:00:00 GMT")]%string)
     = [].
Proof. split; reflexivity. Qed.




(** ** C5: HEAD against GET *)




(** ** C2: GET of a directory *)




Example empty_directory_listing :
  status (Reference.ask "GET" "/pub/" []) = Some 200%N
  /\ header "Content-type" (Reference.ask "GET" "/pub/" [])
     = Some "text/html; charset=utf-8"%string
  /\ List.length (body (Reference.ask "GET" "/pub/" [])) = 195%nat.
Proof. repeat split; reflexivity. Qed.



Example directory_redirect :
  status (Reference.ask "GET" "/docs" []) = Some 301%N
  /\ header "Location" (Reference.ask "GET" "/docs" [])
     = Some "/docs/"%string.
Proof. split; reflexivity. Qed.

(** ** The script and the serving loop *)

(** What a run that reaches [serve_forever] has been through. *)
Lemma run_server_serving (w : World) (backlog : list Connection)
    (httpd : TCPServer) (events : list Event) (st : LoopState) :
  run_server w backlog = Serving httpd events st ->
  socket_bind w "localhost" 4443 = inr (server_address httpd)
  /\ socket_listen w request_queue_size = None
  /\ ssl.load_cert_chain (loader w) "./localhost.pem"
       (Some "./localhost-key.pem"%string) = None
  /\ httpd = httpd_of_script (server_address httpd)
  /\ serve_forever (process w) httpd backlog = (events, st).
Proof.
  unfold run_server, HTTPServer, ssl.wrap_socket; cbn.
  destruct (socket_bind w "localhost" 4443) as [e|bound]; [discriminate|].
  destruct (socket_listen w request_queue_size); [discriminate|].
  destruct (ssl.load_cert_chain (loader w) "./localhost.pem"
              (Some "./localhost-key.pem"%string)); [discriminate|].
  cbn.
  change {| server_address := bound; socket := _ |}
    with (httpd_of_script bound).
  destruct (serve_forever (process w) (httpd_of_script bound) backlog)
    as [evs s] eqn:E.
  intros [= <- <- <-]; repeat split; try reflexivity; exact E.
Qed.

Lemma run_server_started (w : World) (backlog : list Connection)
    (bound : string * N) :
  socket_bind w "localhost" 4443 = inr bound ->
  socket_listen w request_queue_size = None ->
  ssl.load_cert_chain (loader w) "./localhost.pem"
    (Some "./localhost-key.pem"%string) = None ->
  run_server w backlog
  = Serving (httpd_of_script bound)
      (fst (serve_forever (process w) (httpd_of_script bound) backlog))
      (snd (serve_forever (process w) (httpd_of_script bound) backlog)).
Proof.
  intros Hb Hl Hc.
  unfold run_server, HTTPServer, ssl.wrap_socket; cbn.
  rewrite Hb, Hl, Hc; cbn.
  change {| server_address := bound; socket := _ |}
    with (httpd_of_script bound).
  destruct (serve_forever (process w) (httpd_of_script bound) backlog);
    reflexivity.
Qed.

(** The events of one connection behind a wrapped socket. *)
Lemma wrapped_connection_events (proc : Process) (s : ssl.SSLSocket)
    (addr : string * N) (c : Connection) :
  let evs := fst (_handle_request_noblock proc
                    {| server_address := addr; socket := WrappedSocket s |}
                    c) in
  evs = []
  \/ evs = [HandshakeFailed (peer c)]
  \/ exists o, evs = [Handshake (peer c); Handled (peer c) true o].
Proof.
  unfold _handle_request_noblock, get_request; cbn.
  destruct (ssl.do_handshake (ssl.context s) (first_flight c)
              (client_cert c)); cbn; eauto.
Qed.

(** The loop handles connections one after the other. *)
Lemma serve_forever_app (proc : Process) (srv : TCPServer)
    (pre post : list Connection) :
  forallb (returns proc srv) pre = true ->
  serve_forever proc srv (pre ++ post)
  = (fst (serve_forever proc srv pre) ++ fst (serve_forever proc srv post),
     snd (serve_forever proc srv post)).
Proof.
  induction pre as [|c pre IH]; cbn [forallb app serve_forever].
  - intros _; cbn; destruct (serve_forever proc srv post); reflexivity.
  - rewrite andb_true_iff; unfold returns at 1; intros [Hc Hpre].
    destruct (_handle_request_noblock proc srv c) as [evs b].
    cbn in Hc; subst b.
    rewrite (IH Hpre).
    destruct (serve_forever proc srv pre) as [evs1 st1]; cbn.
    rewrite app_assoc; reflexivity.
Qed.

Lemma serve_forever_blocked (proc : Process) (srv : TCPServer)
    (c : Connection) (post : list Connection) :
  returns proc srv c = false ->
  serve_forever proc srv (c :: post)
  = (fst (_handle_request_noblock proc srv c), BlockedOn (peer c)).
Proof.
  unfold returns; cbn [serve_forever].
  destruct (_handle_request_noblock proc srv c) as [evs b]; cbn.
  intros ->; reflexivity.
Qed.

(** The invariant of containment holds along the whole life of a handler
    instance. *)
Lemma handle_contained (P : Platform) (fs : FileSystem) (now : Z)
    (root : str) (rfile : list Input) :
  forall h, contained root h ->
            contained root (handler_of (handle P fs now rfile h)).
Proof.
  induction rfile as [|i rest IH]; intros h Hh; cbn [handle].
  - exact Hh.
  - destruct i as [|reply|c p hs]; cbn [handler_of state_of].
    + exact Hh.
    + exact Hh.
    + assert (H1 : contained root
                     (state_of (handle_one_request P fs now
                                  (parse_request c p hs h)))).
      { eapply holds_state; [apply contained_handle_one_request|exact Hh]. }
      destruct (handle_one_request P fs now (parse_request c p hs h))
        as [[] h'|e h']; cbn [state_of] in H1; [|exact H1].
      destruct (close_connection h'); [exact H1|apply IH; exact H1].
Qed.

Lemma handshake_before_handling_nil : handshake_before_handling [].
Proof. intros [|? ?] ? ? ? ? E; discriminate E. Qed.

Lemma handshake_before_handling_failed (p : N) (events : list Event) :
  handshake_before_handling events ->
  handshake_before_handling (HandshakeFailed p :: events).
Proof.
  intros H [|x pre] q secure o post E; [discriminate E|].
  injection E as <- E.
  destruct (H pre q secure o post E) as [Hs [pre' ->]].
  split; [exact Hs|exists (HandshakeFailed p :: pre'); reflexivity].
Qed.

Lemma handshake_before_handling_done (p : N) (o : Outcome)
    (events : list Event) :
  handshake_before_handling events ->
  handshake_before_handling (Handshake p :: Handled p true o :: events).
Proof.
  intros H [|x [|y pre]] q secure o' post E; [discriminate E| |].
  - injection E as <- <- <- <- <-.
    split; [reflexivity|exists []; reflexivity].
  - injection E as <- <- E.
    destruct (H pre q secure o' post E) as [Hs [pre' ->]].
    split; [exact Hs|].
    exists (Handshake p :: Handled p true o :: pre'); reflexivity.
Qed.

Lemma serve_forever_handshakes (proc : Process) (s : ssl.SSLSocket)
    (addr : string * N) (backlog : list Connection) :
  handshake_before_handling
    (fst (serve_forever proc
            {| server_address := addr; socket := WrappedSocket s |} backlog)).
Proof.
  induction backlog as [|c rest IH]; cbn [serve_forever].
  - exact handshake_before_handling_nil.
  - pose proof (wrapped_connection_events proc s addr c) as Hc.
    destruct (_handle_request_noblock proc
                {| server_address := addr; socket := WrappedSocket s |} c)
      as [evs b].
    destruct (serve_forever proc
                {| server_address := addr; socket := WrappedSocket s |} rest)
      as [evs' st].
    cbn [fst] in *.
    destruct Hc as [->|[->|[o ->]]]; destruct b; cbn [fst app];
      auto using handshake_before_handling_nil,
                 handshake_before_handling_failed,
                 handshake_before_handling_done.
Qed.

(** ** C9: TLS before HTTP *)

(** C9. In every run of the script that reaches [serve_forever], the
    listening socket is the TLS-wrapped one; every connection given to a
    handler was read through TLS and its handling comes right after its own
    completed handshake; a peer that talks plain HTTP fails the handshake and
    is dropped before any handler sees it. *)
Theorem every_exchange_follows_a_handshake :
  forall (w : World) (backlog : list Connection) (httpd : TCPServer)
         (events : list Event) (st : LoopState),
    run_server w backlog = Serving httpd events st ->
    (exists s, socket httpd = WrappedSocket s)
    /\ handshake_before_handling events
    /\ forall c, first_flight c = ssl.NotTLS ->
         _handle_request_noblock (process w) httpd c
         = ([HandshakeFailed (peer c)], true).
Proof.
  intros w backlog httpd events st H.
  destruct (run_server_serving w backlog httpd events st H)
    as (_ & _ & _ & E & Hs).
  rewrite E; split; [eexists; reflexivity|]; split.
  - pose proof (serve_forever_handshakes (process w) _ _ backlog
                : handshake_before_handling
                    (fst (serve_forever (process w)
                            (httpd_of_script (server_address httpd))
                            backlog))) as Hh.
    rewrite <- E, Hs in Hh; exact Hh.
  - intros c Hc; unfold _handle_request_noblock, get_request; cbn.
    rewrite Hc; reflexivity.
Qed.

Lemma every_exchange_follows_a_handshake_witness :
  run_server Machine.ready
    [Machine.plaintext 1; Machine.browser 2]
  = Serving Machine.httpd
      (fst (serve_forever (process Machine.ready) Machine.httpd
              [Machine.plaintext 1; Machine.browser 2]))
      Polling
  /\ handshake_before_handling
       (fst (serve_forever (process Machine.ready) Machine.httpd
               [Machine.plaintext 1; Machine.browser 2])).
Proof.
  assert (H : run_server Machine.ready
                [Machine.plaintext 1; Machine.browser 2]
              = Serving Machine.httpd
                  (fst (serve_forever (process Machine.ready)
                          Machine.httpd
                          [Machine.plaintext 1; Machine.browser 2]))
                  Polling) by (vm_compute; reflexivity).
  split; [exact H|].
  exact (proj1 (proj2
    (every_exchange_follows_a_handshake Machine.ready
       [Machine.plaintext 1; Machine.browser 2] _ _ _ H))).
Defined.

Example plaintext_then_browser :
  List.map event_peer
    (fst (serve_forever (process Machine.ready) Machine.httpd
            [Machine.plaintext 1; Machine.browser 2]))
  = [1; 2; 2]%N.
Proof. vm_compute; reflexivity. Qed.

(** ** C3: one connection at a time *)

(** C3 as stated fails: behind a client that connects and stays silent, a
    client with a working TLS stack and a well-formed request is never
    handled; the only thread is blocked in the first client's handshake. *)
Lemma silent_client_stalls_the_next :
  ~ (forall (w : World) (backlog : list Connection) (c : Connection)
            (httpd : TCPServer) (events : list Event) (st : LoopState),
       run_server w backlog = Serving httpd events st ->
       In c backlog ->
       first_flight c = ssl.ClientHello true ->
       exists secure o, In (Handled (peer c) secure o) events).
Proof.
  intros H.
  assert (E : run_server Machine.ready [Machine.silent 1; Machine.browser 2]
              = Serving Machine.httpd [] (BlockedOn 1))
    by (vm_compute; reflexivity).
  destruct (H Machine.ready [Machine.silent 1; Machine.browser 2]
              (Machine.browser 2) _ _ _ E
              (or_intror (or_introl eq_refl)) eq_refl) as (secure & o & []).
Qed.

(** C3, amended. The server is single-threaded: [serve_forever] takes the
    connections one at a time in the order they arrive and handles each to
    the end, handshake included, before it accepts the next; the events of
    a later connection come after all events of the earlier ones, and once
    a connection blocks, in its handshake or in its request, no connection
    behind it is served. *)
Theorem connections_are_served_one_at_a_time :
  forall (proc : Process) (srv : TCPServer) (pre : list Connection)
         (c : Connection) (post : list Connection),
    forallb (returns proc srv) pre = true ->
    serve_forever proc srv (pre ++ post)
    = (fst (serve_forever proc srv pre) ++ fst (serve_forever proc srv post),
       snd (serve_forever proc srv post))
    /\ (returns proc srv c = false ->
        serve_forever proc srv (pre ++ c :: post)
        = (fst (serve_forever proc srv pre)
           ++ fst (_handle_request_noblock proc srv c),
           BlockedOn (peer c))).
Proof.
  intros proc srv pre c post Hpre; split.
  - apply serve_forever_app; exact Hpre.
  - intros Hc.
    rewrite (serve_forever_app proc srv pre (c :: post) Hpre).
    rewrite (serve_forever_blocked proc srv c post Hc); reflexivity.
Qed.

Lemma connections_are_served_one_at_a_time_witness :
  forallb (returns (process Machine.ready) Machine.httpd)
    [Machine.browser 1] = true
  /\ returns (process Machine.ready) Machine.httpd (Machine.silent 2)
     = false
  /\ serve_forever (process Machine.ready) Machine.httpd
       ([Machine.browser 1] ++ Machine.silent 2 :: [Machine.browser 3])
     = (fst (serve_forever (process Machine.ready) Machine.httpd
               [Machine.browser 1])
        ++ fst (_handle_request_noblock (process Machine.ready)
                  Machine.httpd (Machine.silent 2)),
        BlockedOn 2).
Proof.
  assert (H1 : forallb (returns (process Machine.ready) Machine.httpd)
                 [Machine.browser 1] = true) by (vm_compute; reflexivity).
  assert (H2 : returns (process Machine.ready) Machine.httpd
                 (Machine.silent 2) = false) by (vm_compute; reflexivity).
  split; [exact H1|]; split; [exact H2|].
  exact (proj2 (connections_are_served_one_at_a_time
                  (process Machine.ready) Machine.httpd
                  [Machine.browser 1] (Machine.silent 2)
                  [Machine.browser 3] H1) H2).
Defined.

(** ** C10: no client authentication *)

Lemma handshake_ignores_certificate (ctx : ssl.SSLContext) (f : ssl.Flight)
    (c1 c2 : option ssl.Certificate) :
  ssl.verify_mode ctx = ssl.CERT_NONE ->
  ssl.do_handshake ctx f c1 = ssl.do_handshake ctx f c2.
Proof.
  intros H; unfold ssl.do_handshake; rewrite H; reflexivity.
Qed.

Lemma serve_forever_ignores_certificates (proc : Process)
    (bound : string * N) (g : Connection -> option ssl.Certificate)
    (backlog : list Connection) :
  serve_forever proc (httpd_of_script bound)
    (List.map (fun c => with_client_cert (g c) c) backlog)
  = serve_forever proc (httpd_of_script bound) backlog.
Proof.
  induction backlog as [|c rest IH]; cbn [List.map serve_forever];
    [reflexivity|].
  rewrite IH.
  assert (E : _handle_request_noblock proc (httpd_of_script bound)
                (with_client_cert (g c) c)
              = _handle_request_noblock proc (httpd_of_script bound) c).
  { unfold _handle_request_noblock, get_request, finish_request; cbn.
    rewrite (handshake_ignores_certificate _ (first_flight c) (g c)
               (client_cert c)) by reflexivity.
    reflexivity. }
  rewrite E; reflexivity.
Qed.

(** C10. The script leaves [cert_reqs] at its default, so the context of the
    listening socket has [verify_mode = CERT_NONE] and no trust store; the
    handshake never looks at a client certificate, and a run is the same
    whichever certificates, if any, the clients present: every client that
    completes the handshake is served. *)
Theorem client_certificates_are_ignored :
  forall (w : World) (backlog : list Connection)
         (g : Connection -> option ssl.Certificate),
    ssl.default_cert_reqs = ssl.CERT_NONE
    /\ run_server w (List.map (fun c => with_client_cert (g c) c) backlog)
       = run_server w backlog
    /\ match run_server w backlog with
       | Serving httpd _ _ =>
           exists s, socket httpd = WrappedSocket s
                     /\ ssl.verify_mode (ssl.context s) = ssl.CERT_NONE
                     /\ ssl.ca_certs (ssl.context s) = None
       | Exited _ _ => True
       end.
Proof.
  intros w backlog g; split; [reflexivity|].
  unfold run_server, HTTPServer, ssl.wrap_socket; cbn.
  destruct (socket_bind w "localhost" 4443) as [e|bound];
    [split; [reflexivity|exact I]|].
  destruct (socket_listen w request_queue_size);
    [split; [reflexivity|exact I]|].
  destruct (ssl.load_cert_chain (loader w) "./localhost.pem"
              (Some "./localhost-key.pem"%string));
    [split; [reflexivity|exact I]|].
  cbn.
  change {| server_address := bound; socket := _ |}
    with (httpd_of_script bound).
  rewrite serve_forever_ignores_certificates.
  destruct (serve_forever (process w) (httpd_of_script bound) backlog)
    as [evs st].
  split; [reflexivity|].
  eexists; repeat split; reflexivity.
Qed.

Example stranger_is_served :
  List.map event_peer
    (fst (serve_forever (process Machine.ready) Machine.httpd
            [with_client_cert
               (Some {| ssl.subject := "CN=nobody"; ssl.verifies := false |})
               (Machine.browser 7)]))
  = [7; 7]%N.
Proof. vm_compute; reflexivity. Qed.

(** ** C7: the configuration of a run *)

Lemma handled_in_document_root (proc : Process) (srv : TCPServer)
    (backlog : list Connection) :
  forall p secure o,
    In (Handled p secure o) (fst (serve_forever proc srv backlog)) ->
    contained (getcwd proc) (handler_of o).
Proof.
  induction backlog as [|c rest IH]; cbn [serve_forever fst];
    [intros ? ? ? []|].
  intros p secure o Hin.
  assert (Hc : forall p' s' o',
             In (Handled p' s' o')
                (fst (_handle_request_noblock proc srv c)) ->
             contained (getcwd proc) (handler_of o')).
  { unfold _handle_request_noblock.
    destruct (get_request srv c) as [evs [s rfile| |]] eqn:E;
      unfold get_request in E; intros p' s' o' Hi; cbn [fst] in Hi.
    - apply in_app_or in Hi.
      destruct Hi as [Hi|[Hi|[]]].
      + destruct (socket srv); [injection E as <- _ _; destruct Hi|].
        destruct (ssl.do_handshake _ _ _); try discriminate E.
        injection E as <- _ _; destruct Hi as [Hi|[]]; discriminate Hi.
      + injection Hi as _ _ <-.
        unfold finish_request, SimpleHTTPRequestHandler.
        apply handle_contained; split; [reflexivity|intros ? []].
    - destruct (socket srv); [discriminate E|].
      destruct (ssl.do_handshake _ _ _); try discriminate E.
      injection E as <-; destruct Hi as [Hi|[]]; discriminate Hi.
    - destruct (socket srv); [discriminate E|].
      destruct (ssl.do_handshake _ _ _); try discriminate E.
      injection E as <-; destruct Hi. }
  destruct (_handle_request_noblock proc srv c) as [evs b].
  destruct b; [|exact (Hc p secure o Hin)].
  destruct (serve_forever proc srv rest) as [evs' st]; cbn [fst] in *.
  apply in_app_or in Hin; destruct Hin as [Hin|Hin];
    [exact (Hc p secure o Hin)|exact (IH p secure o Hin)].
Qed.

(** C7. A run of the script that gets to serve has asked to bind
    [('localhost', 4443)], its address being the one the socket then
    reports, and has loaded the pair [./localhost.pem],
    [./localhost-key.pem]; every handler it creates serves from the working
    directory of the process; and the server object is the same however
    many connections have been handled. *)
Theorem server_configuration_is_fixed :
  forall (w : World) (backlog : list Connection) (httpd : TCPServer)
         (events : list Event) (st : LoopState),
    run_server w backlog = Serving httpd events st ->
    socket_bind w "localhost" 4443 = inr (server_address httpd)
    /\ (exists s, socket httpd = WrappedSocket s
                  /\ ssl.certfile (ssl.context s)
                     = Some "./localhost.pem"%string
                  /\ ssl.keyfile (ssl.context s)
                     = Some "./localhost-key.pem"%string)
    /\ ssl.load_cert_chain (loader w) "./localhost.pem"
         (Some "./localhost-key.pem"%string) = None
    /\ Forall (fun e => match e with
                        | Handled _ _ o =>
                            directory (handler_of o) = getcwd (process w)
                        | _ => True
                        end) events
    /\ forall backlog',
         exists events' st',
           run_server w backlog' = Serving httpd events' st'.
Proof.
  intros w backlog httpd events st H.
  destruct (run_server_serving w backlog httpd events st H)
    as (Hb & Hl & Hc & E & Hs).
  split; [exact Hb|].
  split; [rewrite E; eexists; repeat split; reflexivity|].
  split; [exact Hc|]; split.
  - apply Forall_forall; intros [p|p|p secure o] Hin; try exact I.
    pose proof (handled_in_document_root (process w) httpd backlog
                  p secure o) as Hd.
    rewrite Hs in Hd; exact (proj1 (Hd Hin)).
  - intros backlog'.
    pose proof (run_server_started w backlog' (server_address httpd)
                  Hb Hl Hc) as R.
    rewrite <- E in R; eexists _, _; exact R.
Qed.

Lemma server_configuration_is_fixed_witness :
  run_server Machine.ready [Machine.browser 1]
  = Serving Machine.httpd
      (fst (serve_forever (process Machine.ready) Machine.httpd
              [Machine.browser 1]))
      Polling
  /\ socket_bind Machine.ready "localhost" 4443
     = inr (server_address Machine.httpd)
  /\ Forall (fun e => match e with
                      | Handled _ _ o =>
                          directory (handler_of o) = pystr "/srv"
                      | _ => True
                      end)
       (fst (serve_forever (process Machine.ready) Machine.httpd
               [Machine.browser 1])).
Proof.
  assert (H : run_server Machine.ready [Machine.browser 1]
              = Serving Machine.httpd
                  (fst (serve_forever (process Machine.ready)
                          Machine.httpd [Machine.browser 1]))
                  Polling) by (vm_compute; reflexivity).
  split; [exact H|].
  destruct (server_configuration_is_fixed Machine.ready [Machine.browser 1]
              _ _ _ H) as (Ha & _ & _ & Hd & _).
  split; [exact Ha|exact Hd].
Defined.

(** ** C8: failed start *)

(** C8. When binding [('localhost', 4443)] raises, or when it succeeds and
    loading the certificate and key raises, the exception reaches the top of
    the script: the process ends with exit status 1 before [serve_forever] is
    entered, whatever connections are waiting, and the last line of the
    traceback on standard error names the exception and its message. *)
Theorem failed_start_exits_with_status_1 :
  forall (w : World) (backlog : list Connection) (e : Exception),
    socket_bind w "localhost" 4443 = inl e
    \/ ((exists bound, socket_bind w "localhost" 4443 = inr bound)
        /\ socket_listen w request_queue_size = None
        /\ ssl.load_cert_chain (loader w) "./localhost.pem"
             (Some "./localhost-key.pem"%string) = Some e) ->
    run_server w backlog
    = Exited 1 [ "Traceback (most recent call last):"%string;
                 (exc_type e ++ ": " ++ exc_message e)%string ].
Proof.
  intros w backlog e [Hb|([bound Hb] & Hl & Hc)];
    unfold run_server, HTTPServer, ssl.wrap_socket; cbn; rewrite Hb.
  - reflexivity.
  - rewrite Hl; cbn; rewrite Hc; reflexivity.
Qed.

Lemma failed_start_exits_with_status_1_witness :
  socket_bind Machine.port_in_use "localhost" 4443
  = inl {| exc_type := "OSError";
           exc_message := "[Errno 98] Address already in use" |}
  /\ run_server Machine.port_in_use [Machine.browser 1]
     = Exited 1 [ "Traceback (most recent call last):"%string;
                  "OSError: [Errno 98] Address already in use"%string ].
Proof.
  split; [reflexivity|].
  exact (failed_start_exits_with_status_1 Machine.port_in_use
           [Machine.browser 1]
           {| exc_type := "OSError";
              exc_message := "[Errno 98] Address already in use" |}
           (or_introl eq_refl)).
Defined.

Example missing_certificate :
  run_server Machine.no_certificate [Machine.browser 1]
  = Exited 1 [ "Traceback (most recent call last):"%string;
               "FileNotFoundError: [Errno 2] No such file or directory"
               %string ].
Proof. reflexivity. Qed.

(** * Further properties of the handler *)

(** ** Every path through [handle_one_request] *)

(** The lines of a listing and the probes they cost are the same whatever
    state the handler is in. *)
Lemma list_directory_entries_uniform (P : Platform) (fs : FileSystem)
    (p : str) (names : list str) :
  exists entries probes,
    forall c t hs d cc buf w sys,
      list_directory_entries P fs p names (mkHandler c t hs d cc buf w sys)
      = Done entries (mkHandler c t hs d cc buf w (sys ++ probes)).
Proof.
  induction names as [|name rest (es & probes & IH)];
    cbn [list_directory_entries].
  - exists [], []; intros; rewrite app_nil_r; reflexivity.
  - eexists _, ([_; _] ++ probes); intros.
    unfold list_directory_entry; glue; rewrite IH.
    rewrite <- !app_assoc; reflexivity.
Qed.

Ltac unfold_handler :=
  unfold handle_one_request, do_GET, do_HEAD, send_head, send_head_file,
    list_directory.

(** One more decision of [send_head] or [list_directory]. *)
Ltac branch P fs :=
  match goal with
  | |- context [if isdir fs ?p then _ else _] =>
      destruct (isdir fs p) eqn:?
  | |- context [if isfile fs ?p then _ else _] =>
      destruct (isfile fs p) eqn:?
  | |- context [if negb (endswith ?a ?b) then _ else _] =>
      destruct (endswith a b) eqn:?
  | |- context [if endswith ?a ?b then _ else _] =>
      destruct (endswith a b) eqn:?
  | |- context [match open_rb fs ?p with _ => _ end] =>
      destruct (open_rb fs p) eqn:?
  | |- context [if not_modified_since P ?hs ?f then _ else _] =>
      destruct (not_modified_since P hs f) eqn:?
  | |- context [match listdir fs ?p with _ => _ end] =>
      destruct (listdir fs p) eqn:?
  | |- context [list_directory_entries P fs ?p ?l _] =>
      let H := fresh "Hentries" in
      destruct (list_directory_entries_uniform P fs p l) as (? & ? & H);
      rewrite !H; clear H
  | |- context [match fs_encode P ?text with _ => _ end] =>
      destruct (fs_encode P text) eqn:?
  end; cbv [negb]; glue.

Ltac wire_methods :=
  cbv beta iota zeta delta
    [send_error send_response send_response_only send_header end_headers
     flush_headers wfile_write responses];
  glue.

(** The comparisons of literals met on the way. *)
Ltac closed_tests :=
  repeat match goal with
  | |- context [str_eqb (lower_latin1 ?k) (pystr ?c)] =>
      let v := eval vm_compute in (str_eqb (lower_latin1 k) (pystr c)) in
      change (str_eqb (lower_latin1 k) (pystr c)) with v; glue
  | |- context [N.leb ?a ?b] =>
      let v := eval vm_compute in (N.leb a b) in
      change (N.leb a b) with v; glue
  | |- context [N.eqb ?a ?b] =>
      let v := eval vm_compute in (N.eqb a b) in
      change (N.eqb a b) with v; glue
  | |- context [String.eqb ?a ?b] =>
      let v := eval vm_compute in (String.eqb a b) in
      progress change (String.eqb a b) with v; glue
  end.

(** An error page starts with the [<] of its doctype. *)
Lemma error_page_head (code : N) (message explain : str) :
  exists rest,
    utf8_encode_replace (error_message_format code message explain)
    = Byte.x3c :: rest.
Proof. eexists; reflexivity. Qed.

Ltac error_pages :=
  repeat match goal with
  | |- context [match utf8_encode_replace (error_message_format ?c ?m ?e)
                with _ => _ end] =>
      destruct (error_page_head c m e) as [? ->]; glue
  end.

Ltac leaf :=
  wire_methods; closed_tests; cbv [andb orb negb]; glue; error_pages;
  closed_tests; cbv [andb orb negb]; glue.

Ltac by_method m :=
  destruct (String.eqb m "GET") eqn:?Eget;
    [apply String.eqb_eq in Eget; subst m
    |destruct (String.eqb m "HEAD") eqn:?Ehead;
       [apply String.eqb_eq in Ehead; subst m|]].

(** All the ways a request can go, each run to its end. *)
Ltac explore P fs m :=
  unfold_handler; glue; by_method m;
  [ change (String.eqb "GET" "GET") with true; cbv iota; glue;
    repeat branch P fs; leaf
  | change (String.eqb "HEAD" "GET") with false;
    change (String.eqb "HEAD" "HEAD") with true; cbv iota; glue;
    repeat branch P fs; leaf
  | wire_methods; closed_tests; cbv [andb orb negb]; glue;
    error_pages;
    match goal with E : String.eqb m "HEAD" = false |- _ => rewrite ?E end;
    cbv [negb]; glue ].

(** What every run of [handle_one_request] on a fresh handler comes to. *)
Lemma handle_one_request_shape (P : Platform) (fs : FileSystem) (now : Z)
    (root : str) (m t : string) (hs : list (string * string)) :
  match handle_one_request P fs now (request root m t hs) with
  | Done _ h =>
      well_formed (wfile h) = true
      /\ status_among sent_statuses (wfile h) = true
      /\ headers_buffer h = [] /\ close_connection h = true
  | Raised _ h => wfile h = [] /\ headers_buffer h = []
  end.
Proof. explore P fs m; repeat split; reflexivity. Qed.


(** Reading a header off an explicit wire. *)
Ltac lookup :=
  cbv [header header_lines flat_map app get_header find fst snd];
  repeat match goal with
  | |- context [same_name ?a ?b] =>
      let v := eval vm_compute in (same_name a b) in
      change (same_name a b) with v; cbv iota
  end.




Lemma not_modified_since_true (P : Platform) (hs : list (string * string))
    (f : File) :
  not_modified_since P hs f = true ->
  has_header "If-Modified-Since" hs = true
  /\ has_header "If-None-Match" hs = false.
Proof.
  unfold not_modified_since.
  destruct (has_header "If-Modified-Since" hs);
    destruct (has_header "If-None-Match" hs); cbn [andb negb];
    try discriminate; auto.
Qed.

(** X4. A response is 304 only to a conditional request: whatever the method
    and the path, status 304 is sent only when the request has an
    [If-Modified-Since] header and no [If-None-Match] header. *)
Theorem not_modified_only_on_condition :
  forall (P : Platform) (fs : FileSystem) (now : Z) (root : str)
         (method target : string) (hs : list (string * string)),
    status (wfile (state_of (handle_one_request P fs now
                               (request root method target hs))))
    = Some 304%N ->
    has_header "If-Modified-Since" hs = true
    /\ has_header "If-None-Match" hs = false.
Proof.
  intros P fs now root method target hs.
  explore P fs method; cbv [status]; intros H;
    try discriminate H;
    match goal with
    | E : not_modified_since P hs _ = true |- _ =>
        exact (not_modified_since_true P hs _ E)
    end.
Qed.

Lemma not_modified_only_on_condition_witness :
  status (Reference.ask "HEAD" "/b.txt"
            [("If-Modified-Since", "Sat, 01 Jan 2050 00:00:00 GMT")]%string)
  = Some 304%N
  /\ has_header "If-Modified-Since"
       [("If-Modified-Since", "Sat, 01 Jan 2050 00:00:00 GMT")]%string = true
  /\ has_header "If-None-Match"
       [("If-Modified-Since", "Sat, 01 Jan 2050 00:00:00 GMT")]%string
     = false.
Proof.
  assert (H : status (Reference.ask "HEAD" "/b.txt"
                [("If-Modified-Since",
                  "Sat, 01 Jan 2050 00:00:00 GMT")]%string)
              = Some 304%N) by (vm_compute; reflexivity).
  split; [exact H|].
  exact (not_modified_only_on_condition Reference.cpython Reference.disk
           Reference.today (pystr "/srv") "HEAD" "/b.txt" _ H).
Defined.



(** X6. The handler never keeps a connection alive: after any request
    [close_connection] is set, so [handle] reads one request line and
    returns; whatever else the client has sent on the connection is never
    read. *)
Theorem one_request_per_connection :
  forall (P : Platform) (fs : FileSystem) (now : Z) (getcwd : str)
         (first : Input) (rest : list Input),
    SimpleHTTPRequestHandler P fs now getcwd (first :: rest)
    = SimpleHTTPRequestHandler P fs now getcwd [first].
Proof.
  intros P fs now getcwd first rest.
  unfold SimpleHTTPRequestHandler; cbn [handle].
  destruct first as [|reply|c p hs]; try reflexivity.
  change (parse_request c p hs (mkHandler "" "" [] getcwd true [] [] []))
    with (request getcwd c p hs).
  pose proof (handle_one_request_shape P fs now getcwd c p hs) as H.
  destruct (handle_one_request P fs now (request getcwd c p hs))
    as [[] h|e h]; [|reflexivity].
  destruct H as (_ & _ & _ & ->); reflexivity.
Qed.

(** X7. [send_head] catches only [OSError] around [open]: when opening the
    translated path raises [ValueError] (a NUL in the name), a GET or HEAD
    gets no response at all, not even a 404; the handler instance ends with
    the exception after the two system calls and an empty wire. *)
Theorem unopenable_name_gets_no_response :
  forall (P : Platform) (fs : FileSystem) (now : Z) (root : str)
         (target : string) (hs : list (string * string))
         (rest : list Input),
    isdir fs (translate_path P root target) = false ->
    endswith [sep] (translate_path P root target) = false ->
    open_rb fs (translate_path P root target) = OpenValueError ->
    forall method, method = "GET"%string \/ method = "HEAD"%string ->
      SimpleHTTPRequestHandler P fs now root
        (Parsed method target hs :: rest)
      = Returned
          (Raised ValueError
             (mkHandler method target hs root true [] []
                [SysIsdir (translate_path P root target);
                 SysOpen (translate_path P root target)])).
Proof.
  intros P fs now root target hs rest Hd He Ho method [->| ->];
    unfold SimpleHTTPRequestHandler; cbn [handle];
    unfold parse_request, handle_one_request, do_GET, do_HEAD, send_head,
      send_head_file; glue;
    change (String.eqb "GET" "GET") with true;
    change (String.eqb "HEAD" "GET") with false;
    change (String.eqb "HEAD" "HEAD") with true; cbv iota; glue;
    rewrite Hd; glue; rewrite He; glue; rewrite Ho; reflexivity.
Qed.

Lemma unopenable_name_gets_no_response_witness :
  isdir Reference.disk
    (translate_path Reference.cpython (pystr "/srv") "/%00") = false
  /\ endswith [sep]
       (translate_path Reference.cpython (pystr "/srv") "/%00") = false
  /\ open_rb Reference.disk
       (translate_path Reference.cpython (pystr "/srv") "/%00")
     = OpenValueError
  /\ SimpleHTTPRequestHandler Reference.cpython Reference.disk
       Reference.today (pystr "/srv") [Parsed "GET" "/%00" []]
     = Returned
         (Raised ValueError
            (mkHandler "GET" "/%00" [] (pystr "/srv") true [] []
               [SysIsdir (translate_path Reference.cpython (pystr "/srv")
                            "/%00");
                SysOpen (translate_path Reference.cpython (pystr "/srv")
                           "/%00")])).
Proof.
  do 3 (split; [reflexivity|]).
  exact (unopenable_name_gets_no_response Reference.cpython Reference.disk
           Reference.today (pystr "/srv") "/%00" [] []
           eq_refl eq_refl eq_refl "GET" (or_introl eq_refl)).
Defined.

(** * Further properties of strings and paths *)

Lemma split_lacks (c : char) (w : str) : lacks c w = true -> split c w = [w].
Proof.
  induction w as [|x w IH]; simpl; [reflexivity|].
  rewrite andb_true_iff; intros [Hx Hw].
  apply negb_true_iff in Hx; rewrite Hx, (IH Hw); reflexivity.
Qed.

Lemma join_with_split (c : char) (s : str) : join_with c (split c s) = s.
Proof.
  induction s as [|x s IH]; [reflexivity|]; cbn [split].
  destruct (N.eqb x c) eqn:E.
  - apply N.eqb_eq in E; subst x.
    destruct (split c s) as [|w ws] eqn:Es;
      [exfalso; exact (split_not_nil c s Es)|].
    cbn [join_with app]; cbn [join_with] in IH; rewrite IH; reflexivity.
  - destruct (split c s) as [|w ws] eqn:Es;
      [exfalso; exact (split_not_nil c s Es)|].
    destruct ws as [|w' ws]; cbn [join_with app] in *; rewrite IH;
      reflexivity.
Qed.

Lemma split_join_with (c : char) (ws : list str) :
  ws <> [] -> Forall (fun w => lacks c w = true) ws ->
  split c (join_with c ws) = ws.
Proof.
  induction ws as [|w ws IH]; intros Hne Hall; [contradiction|].
  inversion Hall as [|? ? Hw Hws]; subst.
  destruct ws as [|w' ws].
  - apply split_lacks; exact Hw.
  - change (join_with c (w :: w' :: ws))
      with (w ++ c :: join_with c (w' :: ws)).
    rewrite split_app_sep, (split_lacks c w Hw), IH;
      [reflexivity|discriminate|exact Hws].
Qed.

(** X8. [str.split] and [str.join] undo each other: joining the pieces of any
    string with the separator gives the string back, and splitting a join
    gives back the pieces when there is at least one and none holds the
    separator. *)
Theorem split_and_join_are_inverse :
  forall (c : char),
    (forall s, join_with c (split c s) = s)
    /\ (forall ws, ws <> [] -> Forall (fun w => lacks c w = true) ws ->
                   split c (join_with c ws) = ws).
Proof.
  intros c; split; [apply join_with_split|apply split_join_with].
Qed.

Lemma split_and_join_are_inverse_witness :
  [pystr "a"; []; pystr "b"] <> []
  /\ Forall (fun w => lacks sep w = true) [pystr "a"; []; pystr "b"]
  /\ split sep (join_with sep [pystr "a"; []; pystr "b"])
     = [pystr "a"; []; pystr "b"].
Proof.
  assert (H1 : [pystr "a"; []; pystr "b"] <> []) by discriminate.
  assert (H2 : Forall (fun w => lacks sep w = true)
                 [pystr "a"; []; pystr "b"])
    by (repeat constructor).
  split; [exact H1|]; split; [exact H2|].
  exact (proj2 (split_and_join_are_inverse sep) _ H1 H2).
Defined.

(** ** [normpath] on absolute paths *)

Lemma simple_name_parts (w : str) :
  simple_name w = true ->
  nonempty w = true /\ no_sep w = true
  /\ str_eqb w posixpath.curdir = false
  /\ str_eqb w posixpath.pardir = false.
Proof.
  unfold simple_name; rewrite !andb_true_iff, !negb_true_iff; tauto.
Qed.

(** With leading slashes, one step of [normpath] is one step of [walk], and
    the components kept are names. *)
Lemma normpath_step_walk (k : nat) (stack : list str) (comp : str) :
  k <> 0%nat -> no_sep comp = true ->
  Forall (fun w => simple_name w = true) stack ->
  posixpath.normpath_step k stack comp
  = (if nonempty comp then walk stack comp else stack)
  /\ Forall (fun w => simple_name w = true)
       (posixpath.normpath_step k stack comp).
Proof.
  intros Hk Hs Hst; unfold posixpath.normpath_step, walk.
  destruct comp as [|x comp]; [split; [reflexivity|exact Hst]|].
  change (str_eqb (x :: comp) []) with false; cbn [nonempty orb].
  destruct (str_eqb (x :: comp) posixpath.curdir) eqn:E1;
    [split; [reflexivity|exact Hst]|].
  destruct (str_eqb (x :: comp) posixpath.pardir) eqn:E2; cbn [negb orb].
  - assert (Ek : Nat.eqb k 0 = false) by (apply Nat.eqb_neq; exact Hk).
    rewrite Ek; cbn [andb orb].
    destruct stack as [|top stack]; [split; [reflexivity|exact Hst]|].
    inversion Hst as [|? ? Htop Hrest]; subst.
    destruct (simple_name_parts top Htop) as (_ & _ & _ & ->).
    split; [reflexivity|exact Hrest].
  - split; [reflexivity|].
    constructor; [|exact Hst].
    unfold simple_name; rewrite Hs, E1, E2; reflexivity.
Qed.

Lemma normpath_fold_walk (k : nat) (comps : list str) :
  k <> 0%nat -> Forall (fun w => no_sep w = true) comps ->
  forall stack,
    Forall (fun w => simple_name w = true) stack ->
    fold_left (posixpath.normpath_step k) comps stack
    = fold_left walk (filter nonempty comps) stack
    /\ Forall (fun w => simple_name w = true)
         (fold_left (posixpath.normpath_step k) comps stack).
Proof.
  intros Hk Hc; induction comps as [|c comps IH]; intros stack Hst;
    [split; [reflexivity|exact Hst]|].
  inversion Hc as [|? ? Hs Hrest]; subst.
  destruct (normpath_step_walk k stack c Hk Hs Hst) as [E Hst'].
  cbn [fold_left filter].
  destruct (IH Hrest _ Hst') as [E' Hall]; split; [|exact Hall].
  rewrite E', E; destruct (nonempty c); reflexivity.
Qed.

Lemma fold_walk_names (names stack : list str) :
  Forall (fun w => simple_name w = true) names ->
  fold_left walk names stack = rev names ++ stack.
Proof.
  revert stack; induction names as [|w names IH]; intros stack Hall;
    [reflexivity|].
  inversion Hall as [|? ? Hw Hrest]; subst; cbn [fold_left rev].
  rewrite (walk_simple_name stack w Hw), (IH _ Hrest), <- app_assoc.
  reflexivity.
Qed.

Lemma segments_join_names (names : list str) :
  Forall (fun w => simple_name w = true) names ->
  segments (join_with sep names) = names.
Proof.
  intros Hall; unfold segments.
  destruct names as [|w names]; [reflexivity|].
  rewrite split_join_with; [|discriminate|].
  - apply forallb_filter_id, forallb_forall; intros x Hx.
    rewrite Forall_forall in Hall.
    exact (proj1 (simple_name_parts x (Hall x Hx))).
  - rewrite Forall_forall in *; intros x Hx.
    exact (proj1 (proj2 (simple_name_parts x (Hall x Hx)))).
Qed.

Lemma segments_leading_seps (k : nat) (s : str) :
  segments (repeat sep k ++ s) = segments s.
Proof.
  induction k as [|k IH]; [reflexivity|].
  cbn [repeat app].
  change (sep :: repeat sep k ++ s) with ([] ++ sep :: repeat sep k ++ s).
  rewrite segments_app_sep, IH; reflexivity.
Qed.

(** X9. [posixpath.normpath] of a path that starts with a slash is made of
    names only: its components are never empty, [.] or [..]; and it denotes
    the same place as the path it was given, followed component by component
    from the root.  So the [..] segments of a request are all used up
    before [translate_path] looks at the words. *)
Theorem normpath_of_absolute_path :
  forall (p : str),
    startswith [sep] p = true ->
    startswith [sep] (posixpath.normpath p) = true
    /\ Forall (fun w => simple_name w = true)
         (segments (posixpath.normpath p))
    /\ resolve (posixpath.normpath p) = resolve p.
Proof.
  intros p Hp; unfold posixpath.normpath.
  destruct p as [|x p]; [discriminate Hp|]; cbn [str_eqb].
  rewrite Hp.
  set (k := if startswith [sep; sep] (x :: p)
               && negb (startswith [sep; sep; sep] (x :: p))
            then 2%nat else 1%nat).
  assert (Hk : k <> 0%nat) by (unfold k; destruct (_ && _); discriminate).
  destruct (normpath_fold_walk k (split sep (x :: p)) Hk
              (split_pieces_no_sep (x :: p)) [] (Forall_nil _))
    as [E Hall].
  set (stack := fold_left (posixpath.normpath_step k)
                  (split sep (x :: p)) []) in *.
  assert (Hrev : Forall (fun w => simple_name w = true) (rev stack)).
  { apply Forall_forall; intros w Hw.
    rewrite Forall_forall in Hall; apply Hall, in_rev; exact Hw. }
  assert (Hne : nonempty (repeat sep k ++ join_with sep (rev stack)) = true).
  { destruct k as [|k]; [contradiction|reflexivity]. }
  rewrite Hne.
  assert (Hseg : segments (repeat sep k ++ join_with sep (rev stack))
                 = rev stack).
  { rewrite segments_leading_seps; apply segments_join_names; exact Hrev. }
  split; [|split].
  - destruct k as [|k]; [contradiction|].
    cbn [repeat app startswith]; rewrite N.eqb_refl; reflexivity.
  - rewrite Hseg; exact Hrev.
  - unfold resolve at 1; rewrite Hseg, (fold_walk_names _ [] Hrev).
    rewrite app_nil_r, rev_involutive.
    unfold resolve, segments; rewrite <- E; reflexivity.
Qed.

Lemma normpath_of_absolute_path_witness :
  startswith [sep] (pystr "/a/../../etc//./passwd") = true
  /\ segments (posixpath.normpath (pystr "/a/../../etc//./passwd"))
     = [pystr "etc"; pystr "passwd"]
  /\ resolve (posixpath.normpath (pystr "/a/../../etc//./passwd"))
     = resolve (pystr "/a/../../etc//./passwd").
Proof.
  split; [reflexivity|]; split; [reflexivity|].
  exact (proj2 (proj2 (normpath_of_absolute_path
                         (pystr "/a/../../etc//./passwd") eq_refl))).
Defined.

(** ** Query strings and fragments *)

Lemma pystr_append (a b : string) :
  pystr (a ++ b) = pystr a ++ pystr b.
Proof.
  unfold pystr; rewrite <- map_app; f_equal.
  induction a as [|x a IH]; [reflexivity|].
  cbn [String.append list_ascii_of_string app]; rewrite IH; reflexivity.
Qed.

Lemma before_lacks (c : char) (a b : str) :
  lacks c a = true -> before c (a ++ c :: b) = a.
Proof.
  induction a as [|x a IH]; cbn [lacks forallb app before].
  - intros _; rewrite N.eqb_refl; reflexivity.
  - rewrite andb_true_iff; intros [Hx Ha].
    apply negb_true_iff in Hx; rewrite Hx, (IH Ha); reflexivity.
Qed.

Lemma before_fragment (a b : str) :
  lacks (ch "#") a = true ->
  before (ch "#") (before (ch "?") (a ++ ch "#" :: b))
  = before (ch "#") (before (ch "?") a).
Proof.
  induction a as [|x a IH]; cbn [lacks forallb app before].
  - intros _.
    change (N.eqb (ch "#") (ch "?")) with false; cbv iota.
    cbn [before]; rewrite N.eqb_refl; reflexivity.
  - rewrite andb_true_iff; intros [Hx Ha].
    destruct (N.eqb x (ch "?")); [reflexivity|].
    apply negb_true_iff in Hx; cbn [before]; rewrite Hx, (IH Ha).
    reflexivity.
Qed.

(** X10. The query string and the fragment of a request target play no part
    in choosing the file: cutting the target at its first [?], or at its
    first [#], leaves [translate_path] unchanged. *)
Theorem translate_path_ignores_query_and_fragment :
  forall (P : Platform) (root : str) (target rest : string),
    (lacks (ch "?") (pystr target) = true ->
     translate_path P root (target ++ "?" ++ rest)
     = translate_path P root target)
    /\ (lacks (ch "#") (pystr target) = true ->
        translate_path P root (target ++ "#" ++ rest)
        = translate_path P root target).
Proof.
  intros P root target rest; split; intros H; unfold translate_path;
    rewrite !pystr_append.
  - change (pystr "?" ++ pystr rest) with (ch "?" :: pystr rest).
    rewrite (before_lacks (ch "?") (pystr target) (pystr rest) H).
    assert (E : before (ch "?") (pystr target) = pystr target).
    { clear - H; induction (pystr target) as [|x a IH]; [reflexivity|].
      cbn [lacks forallb before] in *; apply andb_true_iff in H.
      destruct H as [Hx Ha]; apply negb_true_iff in Hx.
      rewrite Hx, (IH Ha); reflexivity. }
    rewrite E; reflexivity.
  - change (pystr "#" ++ pystr rest) with (ch "#" :: pystr rest).
    rewrite (before_fragment (pystr target) (pystr rest) H); reflexivity.
Qed.

Lemma translate_path_ignores_query_and_fragment_witness :
  lacks (ch "?") (pystr "/docs/a.txt") = true
  /\ translate_path Reference.cpython (pystr "/srv")
       ("/docs/a.txt" ++ "?" ++ "../../etc/passwd")
     = translate_path Reference.cpython (pystr "/srv") "/docs/a.txt".
Proof.
  split; [reflexivity|].
  exact (proj1 (translate_path_ignores_query_and_fragment Reference.cpython
                  (pystr "/srv") "/docs/a.txt" "../../etc/passwd")
               eq_refl).
Defined.

(** ** [html.escape] *)

Lemma lacks_app (c : char) (a b : str) :
  lacks c (a ++ b) = lacks c a && lacks c b.
Proof. apply forallb_app. Qed.

(** X11. [html.escape(s, quote=False)] leaves no angle bracket in its
    output, whatever the text, and changes nothing in a text that has none
    of [&], [<] and [>]: a request path shown in a directory listing, or a
    message shown in an error page, cannot open or close a tag. *)
Theorem html_escape_leaves_no_tag :
  forall (s : str),
    lacks (ch "<") (html_escape s) = true
    /\ lacks (ch ">") (html_escape s) = true
    /\ (lacks (ch "&") s = true -> lacks (ch "<") s = true ->
        lacks (ch ">") s = true -> html_escape s = s).
Proof.
  induction s as [|c s (IH1 & IH2 & IH3)]; [repeat split|].
  change (html_escape (c :: s))
    with ((if N.eqb c (ch "&") then pystr "&amp;"
           else if N.eqb c (ch "<") then pystr "&lt;"
           else if N.eqb c (ch ">") then pystr "&gt;"
           else [c]) ++ html_escape s).
  rewrite !lacks_app, IH1, IH2, !andb_true_r.
  change (lacks (ch "&") (c :: s))
    with (negb (N.eqb c (ch "&")) && lacks (ch "&") s).
  change (lacks (ch "<") (c :: s))
    with (negb (N.eqb c (ch "<")) && lacks (ch "<") s).
  change (lacks (ch ">") (c :: s))
    with (negb (N.eqb c (ch ">")) && lacks (ch ">") s).
  destruct (N.eqb c (ch "&")) eqn:Ea;
    [repeat split; try reflexivity; discriminate|].
  destruct (N.eqb c (ch "<")) eqn:El;
    [repeat split; try reflexivity; discriminate|].
  destruct (N.eqb c (ch ">")) eqn:Eg;
    [repeat split; try reflexivity; discriminate|].
  cbn [negb andb].
  change (lacks (ch "<") [c]) with (negb (N.eqb c (ch "<")) && true).
  change (lacks (ch ">") [c]) with (negb (N.eqb c (ch ">")) && true).
  rewrite El, Eg; repeat split.
  intros Ha Hl Hg; cbn [app]; rewrite (IH3 Ha Hl Hg); reflexivity.
Qed.

Lemma html_escape_leaves_no_tag_witness :
  lacks (ch "&") (pystr "/pub/readme.txt") = true
  /\ lacks (ch "<") (pystr "/pub/readme.txt") = true
  /\ lacks (ch ">") (pystr "/pub/readme.txt") = true
  /\ html_escape (pystr "/pub/readme.txt") = pystr "/pub/readme.txt".
Proof.
  do 3 (split; [reflexivity|]).
  exact (proj2 (proj2 (html_escape_leaves_no_tag (pystr "/pub/readme.txt")))
           eq_refl eq_refl eq_refl).
Defined.

Example html_escape_script :
  html_escape (pystr "<script>a&b</script>")
  = pystr "&lt;script&gt;a&amp;b&lt;/script&gt;".
Proof. reflexivity. Qed.

(** ** The order of a directory listing *)

Lemma str_ltb_asym (a b : str) : str_ltb a b = true -> str_ltb b a = false.
Proof.
  revert b; induction a as [|x a IH]; intros [|y b]; cbn [str_ltb];
    try reflexivity; try discriminate.
  rewrite orb_true_iff, andb_true_iff, N.ltb_lt, N.eqb_eq.
  intros [Hlt|[-> Hr]].
  - apply orb_false_iff; split; [apply N.ltb_ge; lia|].
    apply andb_false_iff; left; apply N.eqb_neq; lia.
  - rewrite N.ltb_irrefl, N.eqb_refl, (IH b Hr); reflexivity.
Qed.

Lemma str_ltb_trans (a b c : str) :
  str_ltb a b = true -> str_ltb b c = true -> str_ltb a c = true.
Proof.
  revert b c; induction a as [|x a IH]; intros [|y b] [|z c];
    cbn [str_ltb]; try reflexivity; try discriminate.
  rewrite !orb_true_iff, !andb_true_iff, !N.ltb_lt, !N.eqb_eq.
  intros [H1|[-> H1]] [H2|[-> H2]]; try (left; lia).
  right; split; [reflexivity|exact (IH b c H1 H2)].
Qed.

Section Sorting.

Variable key : str -> str.

(** [a] does not come after [b]. *)
Let ordered (a b : str) : Prop := str_ltb (key b) (key a) = false.

Lemma insert_by_key_perm (x : str) (l : list str) :
  Permutation (x :: l) (insert_by_key key x l).
Proof.
  induction l as [|y l IH]; cbn [insert_by_key]; [reflexivity|].
  destruct (str_ltb (key x) (key y)); [reflexivity|].
  rewrite perm_swap; apply perm_skip; exact IH.
Qed.

Lemma insert_by_key_sorted (x : str) (l : list str) :
  StronglySorted ordered l -> StronglySorted ordered (insert_by_key key x l).
Proof.
  induction l as [|y l IH]; cbn [insert_by_key]; intros Hs.
  - repeat constructor.
  - inversion Hs as [|? ? Hl Hy]; subst.
    destruct (str_ltb (key x) (key y)) eqn:E.
    + constructor; [exact Hs|].
      constructor; [exact (str_ltb_asym _ _ E)|].
      rewrite Forall_forall in *; intros z Hz; unfold ordered.
      destruct (str_ltb (key z) (key x)) eqn:Ez; [|reflexivity].
      rewrite <- (Hy z Hz); symmetry.
      exact (str_ltb_trans _ _ _ Ez E).
    + constructor; [exact (IH Hl)|].
      rewrite Forall_forall in *; intros z Hz.
      apply (Permutation_in _ (Permutation_sym (insert_by_key_perm x l)))
        in Hz.
      destruct Hz as [<-|Hz]; [exact E|exact (Hy z Hz)].
Qed.

(** Among the entries with one key, a new entry goes last. *)
Lemma insert_by_key_stable (k : str) (x : str) (l : list str) :
  StronglySorted ordered l ->
  filter (fun y => str_eqb (key y) k) (insert_by_key key x l)
  = filter (fun y => str_eqb (key y) k) l
    ++ (if str_eqb (key x) k then [x] else []).
Proof.
  induction l as [|y l IH]; cbn [insert_by_key]; intros Hs;
    [reflexivity|].
  inversion Hs as [|? ? Hl Hy]; subst.
  destruct (str_ltb (key x) (key y)) eqn:E.
  - cbn [filter].
    destruct (str_eqb (key x) k) eqn:Ex; [|rewrite app_nil_r; reflexivity].
    apply str_eqb_eq in Ex; subst k.
    assert (Hnone : forall z, In z (y :: l) ->
                              str_eqb (key z) (key x) = false).
    { intros z Hz.
      destruct (str_eqb (key z) (key x)) eqn:Ez; [|reflexivity].
      apply str_eqb_eq in Ez.
      destruct Hz as [<-|Hz].
      - rewrite Ez, (str_ltb_asym _ _ E) in E; discriminate E.
      - rewrite Forall_forall in Hy; specialize (Hy z Hz).
        unfold ordered in Hy; rewrite Ez, E in Hy; discriminate Hy. }
    rewrite (Hnone y (or_introl eq_refl)).
    assert (Hl0 : filter (fun z => str_eqb (key z) (key x)) l = []).
    { clear - Hnone; induction l as [|z l IH]; [reflexivity|].
      cbn [filter]; rewrite (Hnone z (or_intror (or_introl eq_refl))).
      apply IH; intros z' [<-|Hz']; apply Hnone; [left|right; right];
        auto. }
    rewrite Hl0; reflexivity.
  - cbn [filter]; rewrite (IH Hl).
    destruct (str_eqb (key y) k); reflexivity.
Qed.

Lemma sort_by_key_acc (l acc : list str) :
  StronglySorted ordered acc ->
  StronglySorted ordered
    (fold_left (fun acc x => insert_by_key key x acc) l acc)
  /\ Permutation (acc ++ l)
       (fold_left (fun acc x => insert_by_key key x acc) l acc)
  /\ forall k,
       filter (fun y => str_eqb (key y) k)
         (fold_left (fun acc x => insert_by_key key x acc) l acc)
       = filter (fun y => str_eqb (key y) k) acc
         ++ filter (fun y => str_eqb (key y) k) l.
Proof.
  revert acc; induction l as [|x l IH]; intros acc Hacc; cbn [fold_left].
  - rewrite app_nil_r; repeat split; [exact Hacc|reflexivity|].
    intros k; rewrite app_nil_r; reflexivity.
  - destruct (IH _ (insert_by_key_sorted x acc Hacc)) as (Hs & Hp & Hf).
    split; [exact Hs|]; split.
    + rewrite <- Hp, <- insert_by_key_perm.
      rewrite <- Permutation_middle; reflexivity.
    + intros k; rewrite Hf, (insert_by_key_stable k x acc Hacc).
      cbn [filter]; rewrite <- app_assoc.
      destruct (str_eqb (key x) k); reflexivity.
Qed.

End Sorting.

(** X12. The names of a directory listing are put in order as
    [list.sort(key=...)] does: the result holds the same names, each as
    often as before; no name comes before one with a smaller key; and
    names with the same key (equal up to case, say) keep the order in which
    [os.listdir] gave them. *)
Theorem sort_by_key_is_a_stable_sort :
  forall (key : str -> str) (l : list str),
    Permutation l (sort_by_key key l)
    /\ StronglySorted (fun a b => str_ltb (key b) (key a) = false)
         (sort_by_key key l)
    /\ forall k,
         filter (fun y => str_eqb (key y) k) (sort_by_key key l)
         = filter (fun y => str_eqb (key y) k) l.
Proof.
  intros key l; unfold sort_by_key.
  destruct (sort_by_key_acc key l [] (SSorted_nil _)) as (Hs & Hp & Hf).
  split; [exact Hp|]; split; [exact Hs|exact Hf].
Qed.

Example sort_by_key_lower :
  sort_by_key Reference.lower_ascii
    [pystr "b.txt"; pystr "README"; pystr "a.txt"; pystr "readme"]
  = [pystr "a.txt"; pystr "b.txt"; pystr "README"; pystr "readme"].
Proof. reflexivity. Qed.

(** * Further properties of requests and of the server *)

(** ** Header names *)

Lemma same_name_lookup (a b n : string) :
  same_name a b = true -> same_name a n = same_name b n.
Proof.
  unfold same_name; intros H; apply str_eqb_eq in H; rewrite H.
  reflexivity.
Qed.

Lemma same_headers_lookup (n : string) (hs hs' : list (string * string)) :
  same_headers hs hs' ->
  has_header n hs = has_header n hs' /\ get_header n hs = get_header n hs'.
Proof.
  unfold has_header, get_header.
  induction 1 as [|kv kv' hs hs' [Hk Hv] _ [IH1 IH2]];
    [split; reflexivity|].
  cbn [existsb find]; rewrite (same_name_lookup _ _ n Hk), IH1.
  split; [reflexivity|].
  destruct (same_name (fst kv') n); [rewrite Hv; reflexivity|exact IH2].
Qed.

Lemma same_headers_not_modified_since (P : Platform)
    (hs hs' : list (string * string)) (f : File) :
  same_headers hs hs' ->
  not_modified_since P hs f = not_modified_since P hs' f.
Proof.
  intros H; unfold not_modified_since.
  destruct (same_headers_lookup "If-Modified-Since" hs hs' H) as [-> ->].
  destruct (same_headers_lookup "If-None-Match" hs hs' H) as [-> _].
  reflexivity.
Qed.

(** X13. The letter case of request header names does not matter: two
    requests with the same method and path whose headers differ only in the
    case of their names ([if-modified-since] for [If-Modified-Since], say)
    are answered with the same bytes, after the same system calls. *)
Theorem header_names_are_case_insensitive :
  forall (P : Platform) (fs : FileSystem) (now : Z) (root : str)
         (method target : string) (hs hs' : list (string * string)),
    same_headers hs hs' ->
    wfile (state_of (handle_one_request P fs now
                       (request root method target hs')))
    = wfile (state_of (handle_one_request P fs now
                         (request root method target hs)))
    /\ syscalls (state_of (handle_one_request P fs now
                             (request root method target hs')))
       = syscalls (state_of (handle_one_request P fs now
                               (request root method target hs))).
Proof.
  intros P fs now root method target hs hs' H.
  pose proof (fun f => same_headers_not_modified_since P hs hs' f H) as E.
  unfold_handler; glue; by_method method;
    [ change (String.eqb "GET" "GET") with true; cbv iota; glue;
      repeat (rewrite <- ?E; branch P fs); leaf
    | change (String.eqb "HEAD" "GET") with false;
      change (String.eqb "HEAD" "HEAD") with true; cbv iota; glue;
      repeat (rewrite <- ?E; branch P fs); leaf
    | wire_methods; closed_tests; cbv [andb orb negb]; glue;
      error_pages; rewrite ?Ehead; cbv [negb]; glue ];
    split; reflexivity.
Qed.

Lemma header_names_are_case_insensitive_witness :
  same_headers
    [("If-Modified-Since", "Sat, 01 Jan 2050 00:00:00 GMT")]%string
    [("if-modified-since", "Sat, 01 Jan 2050 00:00:00 GMT")]%string
  /\ Reference.ask "GET" "/b.txt"
       [("if-modified-since", "Sat, 01 Jan 2050 00:00:00 GMT")]%string
     = Reference.ask "GET" "/b.txt"
         [("If-Modified-Since", "Sat, 01 Jan 2050 00:00:00 GMT")]%string.
Proof.
  assert (H : same_headers
                [("If-Modified-Since",
                  "Sat, 01 Jan 2050 00:00:00 GMT")]%string
                [("if-modified-since",
                  "Sat, 01 Jan 2050 00:00:00 GMT")]%string)
    by (repeat constructor).
  split; [exact H|].
  exact (proj1 (header_names_are_case_insensitive Reference.cpython
                  Reference.disk Reference.today (pystr "/srv") "GET"
                  "/b.txt" _ _ H)).
Defined.

(** ** [ssl.wrap_socket] *)

(** X14. [wrap_socket] gives a server-side socket only after the
    certificate chain has been loaded: if it returns, a non-empty [certfile]
    was given and [load_cert_chain] on it and on the key file went through;
    the context then holds exactly the arguments of the call.  Without a
    [certfile] a server-side call raises [ValueError] and loads nothing. *)
Theorem wrap_socket_needs_a_certificate :
  forall (ld : ssl.Loader) (keyfile certfile : option string)
         (cert_reqs : ssl.VerifyMode) (ca_certs ciphers : option string),
    (forall s,
       ssl.wrap_socket ld keyfile certfile true cert_reqs ca_certs ciphers
       = inr s ->
       (exists c, certfile = Some c /\ c <> ""%string
                  /\ ssl.load_cert_chain ld c keyfile = None)
       /\ s = {| ssl.context :=
                   {| ssl.verify_mode := cert_reqs;
                      ssl.certfile := certfile; ssl.keyfile := keyfile;
                      ssl.ca_certs := ca_certs; ssl.ciphers := ciphers |};
                 ssl.server_side := true |})
    /\ (ssl.truthy certfile = false ->
        ssl.wrap_socket ld keyfile certfile true cert_reqs ca_certs ciphers
        = inl {| exc_type := "ValueError";
                 exc_message :=
                   "certfile must be specified for server-side operations"
              |}).
Proof.
  intros ld keyfile certfile cert_reqs ca_certs ciphers.
  unfold ssl.wrap_socket, ssl.guard; split.
  - intros s.
    destruct certfile as [c|]; cbn [ssl.truthy andb negb]; [|discriminate].
    destruct (String.eqb c "") eqn:Ec; cbn [negb]; [discriminate|].
    destruct (ssl.truthy keyfile && false); [discriminate|].
    repeat match goal with
           | |- context [match ?x with Some _ => _ | None => _ end] =>
               destruct x eqn:?
           | |- context [if ?b then _ else _] => destruct b eqn:?
           end; try discriminate;
      intros [= <-]; (split; [|reflexivity]);
      exists c; (split; [reflexivity|]);
      (split; [apply String.eqb_neq; exact Ec|assumption]).
  - intros ->; reflexivity.
Qed.

Lemma wrap_socket_needs_a_certificate_witness :
  ssl.wrap_socket (loader Machine.ready)
    (Some "./localhost-key.pem"%string) (Some "./localhost.pem"%string)
    true ssl.CERT_NONE None None
  = inr (match socket Machine.httpd with
         | WrappedSocket s => s
         | PlainSocket =>
             {| ssl.context :=
                  {| ssl.verify_mode := ssl.CERT_NONE;
                     ssl.certfile := None; ssl.keyfile := None;
                     ssl.ca_certs := None; ssl.ciphers := None |};
                ssl.server_side := false |}
         end)
  /\ ssl.load_cert_chain (loader Machine.ready) "./localhost.pem"
       (Some "./localhost-key.pem"%string) = None.
Proof.
  assert (H : ssl.wrap_socket (loader Machine.ready)
                (Some "./localhost-key.pem"%string)
                (Some "./localhost.pem"%string)
                true ssl.CERT_NONE None None
              = inr (match socket Machine.httpd with
                     | WrappedSocket s => s
                     | PlainSocket =>
                         {| ssl.context :=
                              {| ssl.verify_mode := ssl.CERT_NONE;
                                 ssl.certfile := None; ssl.keyfile := None;
                                 ssl.ca_certs := None; ssl.ciphers := None |};
                            ssl.server_side := false |}
                     end)) by reflexivity.
  split; [exact H|].
  destruct (proj1 (wrap_socket_needs_a_certificate (loader Machine.ready)
                     (Some "./localhost-key.pem"%string)
                     (Some "./localhost.pem"%string)
                     ssl.CERT_NONE None None) _ H)
    as [(c & Hc & _ & Hl) _].
  injection Hc as <-; exact Hl.
Defined.

(** ** What stops the loop *)






(** ** Redirects *)

(** X16. A response is 301 only for a directory named without its final
    slash: the translated path is a directory and the path of the URL does
    not end in [/].  The redirect then points to the same URL with the slash
    added to its path, has [Content-Length: 0] and no body, and the handler
    has only asked whether the path is a directory: nothing was opened or
    listed. *)
Theorem redirect_only_for_directory_without_slash :
  forall (P : Platform) (fs : FileSystem) (now : Z) (root : str)
         (method target : string) (hs : list (string * string)),
    let h := state_of (handle_one_request P fs now
                         (request root method target hs)) in
    let parts := urlsplit P target in
    status (wfile h) = Some 301%N ->
    isdir fs (translate_path P root target) = true
    /\ endswith [sep] (pystr (sr_path parts)) = false
    /\ header "Location" (wfile h)
       = Some (urlunsplit P
                 {| sr_scheme := sr_scheme parts;
                    sr_netloc := sr_netloc parts;
                    sr_path := (sr_path parts ++ "/")%string;
                    sr_query := sr_query parts;
                    sr_fragment := sr_fragment parts |})
    /\ header "Content-Length" (wfile h) = Some "0"%string
    /\ body (wfile h) = []
    /\ syscalls h = [SysIsdir (translate_path P root target)].
Proof.
  intros P fs now root method target hs h parts; subst h parts.
  explore P fs method; cbv [status]; intros H; try discriminate H;
    repeat split; try assumption; reflexivity.
Qed.

Lemma redirect_only_for_directory_without_slash_witness :
  status (Reference.ask "GET" "/docs?x=1" []) = Some 301%N
  /\ header "Location" (Reference.ask "GET" "/docs?x=1" [])
     = Some "/docs/?x=1"%string.
Proof.
  assert (H : status (Reference.ask "GET" "/docs?x=1" []) = Some 301%N)
    by (vm_compute; reflexivity).
  split; [exact H|].
  destruct (redirect_only_for_directory_without_slash Reference.cpython
              Reference.disk Reference.today (pystr "/srv") "GET"
              "/docs?x=1" [] H) as (_ & _ & Hl & _).
  etransitivity; [exact Hl|vm_compute; reflexivity].
Defined.
